(** * py-uconnect: the cloud client [pyfiat/api.py]

    A shallow embedding of class [API]: the federated login chain, the
    freshness check that guards every authenticated call, the four read
    operations and the remote command with its PIN step-up.

    Python values are an inductive type, dictionaries are finite maps,
    and every method is a computation in a state-and-exception monad over
    the instance attributes and a trace of the effects performed so far
    (clock reads, random draws, HTTP requests, the creation of the
    federation client and the calls to it).  What
    the outside world answers is read from an environment record, so the
    statements below hold for every server behaviour. *)

From Stdlib Require Import ZArith Ascii String.
From stdpp Require Import base option gmap strings list fin_maps pretty.

Set Warnings "-register-all".
Local Open Scope Z_scope.
Local Open Scope string_scope.

(** ** Python values *)

(** A [tzinfo]: the UTC offset, in microseconds, that it gives to a
    wall-clock reading and its [fold]. *)
Record tzinfo : Type := {
  utcoffset : Z -> bool -> Z
}.

(** A [datetime]: its wall-clock reading in microseconds since
    0001-01-01T00:00 ([datetime.min]), its [fold], and its tzinfo ([None]
    when it is naive). *)
Record datetime : Type := {
  wall : Z;
  fold : bool;
  tz : option tzinfo
}.

(** The values that travel through the client: what [json.loads] builds,
    plus [datetime] values ([PTime]), which is what the federation client
    returns as [Expiration].  JSON numbers with a fractional part are
    outside the model. *)
Inductive pyval : Type :=
| PNone
| PBool (b : bool)
| PInt (z : Z)
| PStr (s : string)
| PTime (t : datetime)
| PList (l : list pyval)
| PDict (d : gmap string pyval).

(** The exceptions the client can raise or let through. *)
Inductive exn : Type :=
| Exception_ (msg : string)        (* raise Exception(msg) *)
| KeyError (key : string)          (* d[key], key absent *)
| TypeError                        (* operator applied to a wrong type *)
| AttributeError (attr : string)   (* method absent on the receiver *)
| JSONDecodeError                  (* body or file that is not JSON *)
| RequestException (tag : string)  (* raised by the HTTP transport *)
| ClientError (tag : string)       (* raised by the federation client *)
| FileNotFoundError (path : string)
| OverflowError                    (* datetime arithmetic out of range *)
| BotoCoreError (tag : string).    (* raised by boto3.client(...) *)

Inductive result (A : Type) : Type :=
| Ok (a : A)
| Raised (e : exn).
Arguments Ok {A} a.
Arguments Raised {A} e.

(** [a | b] on dictionaries: the entries of [a], overwritten and extended
    by those of [b]. *)
Definition dict_or {V : Type} (a b : gmap string V) : gmap string V :=
  union_with (fun _ y => Some y) a b.

(** ** Strings *)

Definition upper_ascii (c : ascii) : ascii :=
  let n := N_of_ascii c in
  if ((97 <=? n) && (n <=? 122))%N then ascii_of_N (n - 32) else c.

(** [str.upper] on ASCII text. *)
Fixpoint upper (s : string) : string :=
  match s with
  | EmptyString => EmptyString
  | String c r => String (upper_ascii c) (upper r)
  end.

(** [s[0:n]]. *)
Fixpoint take_str (n : nat) (s : string) : string :=
  match n, s with
  | S k, String c r => String c (take_str k r)
  | _, _ => EmptyString
  end.

Fixpoint starts_with (p s : string) : bool :=
  match p, s with
  | EmptyString, _ => true
  | String a p', String b s' => if Ascii.eqb a b then starts_with p' s' else false
  | String _ _, EmptyString => false
  end.

(** [p in s] on two strings. *)
Fixpoint contains_str (p s : string) : bool :=
  starts_with p s ||
  match s with
  | EmptyString => false
  | String _ r => contains_str p r
  end.

Definition hex_digit (d : Z) : ascii :=
  match d with
  | 0 => "0" | 1 => "1" | 2 => "2" | 3 => "3" | 4 => "4" | 5 => "5"
  | 6 => "6" | 7 => "7" | 8 => "8" | 9 => "9" | 10 => "a" | 11 => "b"
  | 12 => "c" | 13 => "d" | 14 => "e" | _ => "f"
  end%char.

(** ['%0nx' % v]: the [n] low hexadecimal digits of [v], most significant
    first. *)
Fixpoint hex_of (n : nat) (v : Z) : string :=
  match n with
  | O => EmptyString
  | S k => String (hex_digit ((v / 16 ^ Z.of_nat k) mod 16)) (hex_of k v)
  end.

Definition is_upper_hex (c : ascii) : bool :=
  let n := N_of_ascii c in
  (((48 <=? n) && (n <=? 57)) || ((65 <=? n) && (n <=? 70)))%N.

Fixpoint all_chars (p : ascii -> bool) (s : string) : bool :=
  match s with
  | EmptyString => true
  | String c r => p c && all_chars p r
  end.

(** ** uuid and base64 *)

(** [uuid.uuid4()]: 128 random bits with the variant and version fields
    forced, as the [UUID] constructor does for [version=4]. *)
Definition uuid4_int (rnd : Z) : Z :=
  let i := rnd mod 2 ^ 128 in
  let i := Z.land i (Z.lnot (Z.shiftl 0xc000 48)) in
  let i := Z.lor i (Z.shiftl 0x8000 48) in
  let i := Z.land i (Z.lnot (Z.shiftl 0xf000 64)) in
  Z.lor i (Z.shiftl 4 76).

(** [UUID.hex]. *)
Definition uuid_hex (rnd : Z) : string := hex_of 32 (uuid4_int rnd).

(** [uuid.uuid4().hex.upper()[0:16]]. *)
Definition correlation_id (rnd : Z) : string :=
  take_str 16 (upper (uuid_hex rnd)).

Definition b64_alphabet : string :=
  "ABCDEFGHIJKLMNOPQRSTUVWXYZabcdefghijklmnopqrstuvwxyz0123456789+/".

Definition b64_char (n : N) : ascii :=
  match String.get (N.to_nat n) b64_alphabet with
  | Some c => c
  | None => "="%char
  end.

Fixpoint b64_bytes (bs : list N) : string :=
  match bs with
  | [] => EmptyString
  | [a] =>
      String (b64_char (N.shiftr a 2))
        (String (b64_char (N.shiftl (N.land a 3) 4)) "==")
  | [a; b] =>
      String (b64_char (N.shiftr a 2))
        (String (b64_char (N.lor (N.shiftl (N.land a 3) 4) (N.shiftr b 4)))
           (String (b64_char (N.shiftl (N.land b 15) 2)) "="))
  | a :: b :: c :: rest =>
      String (b64_char (N.shiftr a 2))
        (String (b64_char (N.lor (N.shiftl (N.land a 3) 4) (N.shiftr b 4)))
           (String (b64_char (N.lor (N.shiftl (N.land b 15) 2) (N.shiftr c 6)))
              (String (b64_char (N.land c 63)) (b64_bytes rest))))
  end.

Fixpoint bytes_of (s : string) : list N :=
  match s with
  | EmptyString => []
  | String c r => N_of_ascii c :: bytes_of r
  end.

(** [base64.b64encode(s.encode()).decode(encoding="utf-8")]; a [string]
    here already is its UTF-8 bytes. *)
Definition b64encode (s : string) : string := b64_bytes (bytes_of s).

(** ** Operators on Python values *)

(** [v[key]] with a string key. *)
Definition subscript (v : pyval) (key : string) : result pyval :=
  match v with
  | PDict d =>
      match d !! key with
      | Some x => Ok x
      | None => Raised (KeyError key)
      end
  | _ => Raised TypeError
  end.

Definition is_str (key : string) (v : pyval) : bool :=
  match v with
  | PStr s => String.eqb s key
  | _ => false
  end.

(** [key in v] with a string key: a key of a dict, an element of a list,
    a substring of a string; a [TypeError] on anything else. *)
Definition py_in (key : string) (v : pyval) : result bool :=
  match v with
  | PDict d => Ok (bool_decide (is_Some (d !! key)))
  | PList l => Ok (existsb (is_str key) l)
  | PStr s => Ok (contains_str key s)
  | _ => Raised TypeError
  end.

(** [v.get(key, dflt)]. *)
Definition py_get (v : pyval) (key : string) (dflt : pyval) : result pyval :=
  match v with
  | PDict d => Ok (default dflt (d !! key))
  | _ => Raised (AttributeError "get")
  end.

(** [v != n] for an integer literal [n]; [True] and [False] compare as 1
    and 0. *)
Definition ne_int (v : pyval) (n : Z) : bool :=
  match v with
  | PInt z => negb (Z.eqb z n)
  | PBool b => negb (Z.eqb (Z.b2z b) n)
  | _ => true
  end.

(** [v != s] for a string literal [s]. *)
Definition ne_str (v : pyval) (s : string) : bool := negb (is_str s v).

(** [datetime.timedelta(minutes=5)], in microseconds. *)
Definition five_minutes : Z := 5 * 60 * 1000000.

(** [v - datetime.timedelta(minutes=5)]: the wall-clock reading moves
    back five minutes, the tzinfo stays and the fold is 0; a reading
    before [datetime.min] is an [OverflowError]. *)
Definition minus_five_minutes (v : pyval) : result datetime :=
  match v with
  | PTime d =>
      if (wall d - five_minutes <? 0)%Z then Raised OverflowError
      else Ok {| wall := wall d - five_minutes; fold := false; tz := tz d |}
  | _ => Raised TypeError
  end.

(** The instant of an aware [datetime], in microseconds since
    0001-01-01T00:00 UTC: its wall-clock reading less the offset its
    tzinfo gives to that reading. *)
Definition instant (d : datetime) : option Z :=
  match tz d with
  | Some z => Some (wall d - utcoffset z (wall d) (fold d))
  | None => None
  end.

(** [now > d], where [now] is [datetime.now().astimezone()] at instant
    [t].  That value carries a tzinfo object of its own, so the two are
    compared as instants; a naive [d] is a [TypeError]. *)
Definition now_gt (t : Z) (d : datetime) : result bool :=
  match instant d with
  | Some i => Ok (i <? t)%Z
  | None => Raised TypeError
  end.

(** ** Configuration and requests *)

(** [brands.Brand]: the fields the client reads. *)
Record Brand : Type := {
  region : string;
  login_api_key : string;
  api_key : string;
  login_url : string;
  token_url : string;
  api_url : string;
  auth_api_key : string;
  auth_url : string
}.

(** [command.Command]. *)
Record Command : Type := {
  name : string;
  url : string
}.

(** [AWSSigV4(service, region=..., aws_access_key_id=..., ...)]. *)
Record AWSSigV4 : Type := {
  service : string;
  sig_region : string;
  aws_access_key_id : pyval;
  aws_secret_access_key : pyval;
  aws_session_token : pyval
}.

(** The call site a request is issued from. *)
Inductive endpoint : Type :=
| EpBootstrap
| EpLogin
| EpGetJWT
| EpToken
| EpListVehicles
| EpVehicle
| EpVehicleStatus
| EpVehicleLocation
| EpPinAuth
| EpCommand.

(** The arguments of one [self.sess.request(...)]. *)
Record request : Type := {
  req_endpoint : endpoint;
  req_method : string;
  req_url : string;
  req_params : gmap string pyval;
  req_headers : gmap string string;
  req_json : option pyval;
  req_auth : option AWSSigV4
}.

(** What the transport returns: an HTTP status and a body, [None] when
    the body is not JSON. *)
Record response : Type := {
  status_code : Z;
  body : option pyval
}.

(** The effects a run performs, in the order it performs them. *)
Inductive event : Type :=
| EvNow
| EvUuid
| EvHttp (r : request)
| EvCognito (identity_id token : pyval)
| EvClient (service region : string).

(** The outside world.  Every answer may depend on all that happened
    before (the trace, newest event first). *)
Record env : Type := {
  (** the instant of [datetime.datetime.now().astimezone()], microseconds
      since 0001-01-01T00:00 UTC *)
  clock : list event -> Z;
  (** the 128 random bits behind [uuid.uuid4()] *)
  urandom : list event -> Z;
  (** [requests.Session.request]: a response, or the transport's failure *)
  transport : list event -> request -> string + response;
  (** [cognito_client.get_credentials_for_identity]: a document, or the
      client's failure *)
  get_credentials_for_identity : list event -> pyval -> pyval -> string + pyval;
  (** [boto3.client(service, region)]: [None] when the client is built,
      the failure otherwise *)
  boto3_client : list event -> string -> string -> option string;
  (** the fixture files of dev mode: absent, not JSON, or a document *)
  fixture : string -> option (option pyval);
  (** [str()] of the values whose text the model leaves open *)
  py_repr : pyval -> string
}.

(** ** The client object *)

(** The attributes of an [API] instance.  [self.sess] is the transport of
    the environment (its cookies are part of the trace). *)
Record API : Type := {
  email : string;
  password : string;
  pin : string;
  brand : Brand;
  dev_mode : bool;
  uid : pyval;
  aws_auth : option AWSSigV4;
  cognito_client : option (string * string);
  expire_time : pyval
}.

(** [API.__init__]. *)
Definition init (email password pin : string) (brand : Brand)
    (dev_mode : bool) : API :=
  {| email := email; password := password; pin := pin; brand := brand;
     dev_mode := dev_mode;
     uid := PNone; aws_auth := None; cognito_client := None;
     expire_time := PNone |}.

Definition set_uid (v : pyval) (s : API) : API :=
  {| email := email s; password := password s; pin := pin s;
     brand := brand s; dev_mode := dev_mode s;
     uid := v; aws_auth := aws_auth s;
     cognito_client := cognito_client s; expire_time := expire_time s |}.

Definition set_aws_auth (a : AWSSigV4) (s : API) : API :=
  {| email := email s; password := password s; pin := pin s;
     brand := brand s; dev_mode := dev_mode s;
     uid := uid s; aws_auth := Some a;
     cognito_client := cognito_client s; expire_time := expire_time s |}.

Definition set_cognito_client (c : string * string) (s : API) : API :=
  {| email := email s; password := password s; pin := pin s;
     brand := brand s; dev_mode := dev_mode s;
     uid := uid s; aws_auth := aws_auth s;
     cognito_client := Some c; expire_time := expire_time s |}.

Definition set_expire_time (v : pyval) (s : API) : API :=
  {| email := email s; password := password s; pin := pin s;
     brand := brand s; dev_mode := dev_mode s;
     uid := uid s; aws_auth := aws_auth s;
     cognito_client := cognito_client s; expire_time := v |}.

(** ** The monad of methods *)

Record world : Type := {
  self : API;
  trace : list event
}.

Definition M (A : Type) : Type := world -> result A * world.

Definition ret {A : Type} (a : A) : M A := fun w => (Ok a, w).

Definition raise {A : Type} (e : exn) : M A := fun w => (Raised e, w).

Definition bind {A B : Type} (m : M A) (f : A -> M B) : M B :=
  fun w =>
    match m w with
    | (Ok a, w') => f a w'
    | (Raised e, w') => (Raised e, w')
    end.

Definition lift {A : Type} (r : result A) : M A := fun w => (r, w).

Definition get_self : M API := fun w => (Ok (self w), w).

Definition modify_self (f : API -> API) : M unit :=
  fun w => (Ok tt, {| self := f (self w); trace := trace w |}).

Definition emit (ev : event) (w : world) : world :=
  {| self := self w; trace := ev :: trace w |}.

Declare Scope py_scope.
Delimit Scope py_scope with py.
Notation "x <- m ;; k" := (bind m (fun x => k))
  (at level 100, m at next level, right associativity) : py_scope.
Notation "m ;;; k" := (bind m (fun _ => k))
  (at level 100, right associativity) : py_scope.
Local Open Scope py_scope.

(** [str(v)], as an f-string interpolates it. *)
Definition py_str (E : env) (v : pyval) : string :=
  match v with
  | PNone => "None"
  | PBool true => "True"
  | PBool false => "False"
  | PInt z => pretty z
  | PStr s => s
  | _ => py_repr E v
  end.

(** ** The methods of [API] *)

Section Methods.

Context (E : env).

(** [datetime.datetime.now().astimezone()]. *)
Definition now : M Z :=
  fun w => (Ok (clock E (trace w)), emit EvNow w).

(** The random bits of one [uuid.uuid4()]. *)
Definition uuid4 : M Z :=
  fun w => (Ok (urandom E (trace w)), emit EvUuid w).

(** [self.sess.request(...)]. *)
Definition sess_request (r : request) : M response :=
  fun w =>
    match transport E (trace w) r with
    | inr resp => (Ok resp, emit (EvHttp r) w)
    | inl tag => (Raised (RequestException tag), emit (EvHttp r) w)
    end.

(** [Response.json()]. *)
Definition json (resp : response) : M pyval :=
  match body resp with
  | Some v => ret v
  | None => raise JSONDecodeError
  end.

(** [self.cognito_client.get_credentials_for_identity(IdentityId=...,
    Logins={"cognito-identity.amazonaws.com": ...})]. *)
Definition cognito_get_credentials (identity_id token : pyval) : M pyval :=
  fun w =>
    match get_credentials_for_identity E (trace w) identity_id token with
    | inr doc => (Ok doc, emit (EvCognito identity_id token) w)
    | inl tag => (Raised (ClientError tag), emit (EvCognito identity_id token) w)
    end.

(** [boto3.client(service, region)]. *)
Definition create_client (service region : string) : M (string * string) :=
  fun w =>
    match boto3_client E (trace w) service region with
    | None => (Ok (service, region), emit (EvClient service region) w)
    | Some tag => (Raised (BotoCoreError tag), emit (EvClient service region) w)
    end.

(** [with open(path) as f: json.load(f)]. *)
Definition load_fixture (path : string) : M pyval :=
  match fixture E path with
  | None => raise (FileNotFoundError path)
  | Some None => raise JSONDecodeError
  | Some (Some v) => ret v
  end.

Definition default_params (b : Brand) : gmap string pyval :=
  {[ "targetEnv" := PStr "jssdk";
     "loginMode" := PStr "standard";
     "sdk" := PStr "js_latest";
     "authMode" := PStr "cookie";
     "sdkBuild" := PStr "12234";
     "format" := PStr "json";
     "APIKey" := PStr (login_api_key b) ]}.

Definition _with_default_params (s : API) (params : gmap string pyval)
    : gmap string pyval :=
  dict_or params (default_params (brand s)).

Definition _default_aws_headers (key : string) : M (gmap string string) :=
  rnd <- uuid4;;
  ret ({[ "x-clientapp-name" := "CWP";
          "x-clientapp-version" := "1.0";
          "clientrequestid" := correlation_id rnd;
          "x-api-key" := key;
          "locale" := "de_de";
          "x-originator-type" := "web" ]} : gmap string string).

Definition content_type_json : gmap string string :=
  {[ "content-type" := "application/json" ]}.

Definition login : M unit :=
  s <- get_self;;
  (match cognito_client s with
   | None =>
       c <- create_client "cognito-identity" (region (brand s));;
       modify_self (set_cognito_client c)
   | Some _ => ret tt
   end);;;
  resp <- sess_request
    {| req_endpoint := EpBootstrap;
       req_method := "GET";
       req_url := login_url (brand s) +:+ "/accounts.webSdkBootstrap";
       req_params := {[ "apiKey" := PStr (login_api_key (brand s)) ]};
       req_headers := ∅; req_json := None; req_auth := None |};;
  r <- json resp;;
  sc <- lift (subscript r "statusCode");;
  if ne_int sc 200 then raise (Exception_ "bootstrap failed") else
  resp <- sess_request
    {| req_endpoint := EpLogin;
       req_method := "POST";
       req_url := login_url (brand s) +:+ "/accounts.login";
       req_params := _with_default_params s
         {[ "loginID" := PStr (email s);
            "password" := PStr (password s);
            "sessionExpiration" := PInt 300;
            "include" := PStr "profile,data,emails,subscriptions,preferences" ]};
       req_headers := ∅; req_json := None; req_auth := None |};;
  r <- json resp;;
  sc <- lift (subscript r "statusCode");;
  if ne_int sc 200 then raise (Exception_ "login failed") else
  u <- lift (subscript r "UID");;
  modify_self (set_uid u);;;
  si <- lift (subscript r "sessionInfo");;
  login_token <- lift (subscript si "login_token");;
  resp <- sess_request
    {| req_endpoint := EpGetJWT;
       req_method := "POST";
       req_url := login_url (brand s) +:+ "/accounts.getJWT";
       req_params := _with_default_params s
         {[ "login_token" := login_token;
            "fields" := PStr "profile.firstName,profile.lastName,profile.email,country,locale,data.disclaimerCodeGSDP" ]};
       req_headers := ∅; req_json := None; req_auth := None |};;
  r <- json resp;;
  sc <- lift (subscript r "statusCode");;
  if ne_int sc 200 then raise (Exception_ "unable to obtain JWT") else
  hdrs <- _default_aws_headers (api_key (brand s));;
  id_token <- lift (subscript r "id_token");;
  resp <- sess_request
    {| req_endpoint := EpToken;
       req_method := "POST";
       req_url := token_url (brand s);
       req_params := ∅;
       req_headers := hdrs;
       req_json := Some (PDict {[ "gigya_token" := id_token ]});
       req_auth := None |};;
  r <- json resp;;
  identity_id <- lift (subscript r "IdentityId");;
  token <- lift (subscript r "Token");;
  r <- cognito_get_credentials identity_id token;;
  creds <- lift (subscript r "Credentials");;
  access_key <- lift (subscript creds "AccessKeyId");;
  secret_key <- lift (subscript creds "SecretKey");;
  session_token <- lift (subscript creds "SessionToken");;
  modify_self (set_aws_auth
    {| service := "execute-api";
       sig_region := region (brand s);
       aws_access_key_id := access_key;
       aws_secret_access_key := secret_key;
       aws_session_token := session_token |});;;
  expiration <- lift (subscript creds "Expiration");;
  modify_self (set_expire_time expiration).

(** The condition of [_refresh_token_if_needed]:
    [self.expire_time is None or now() > self.expire_time - timedelta(minutes=5)]. *)
Definition needs_refresh (s : API) : M bool :=
  match expire_time s with
  | PNone => ret true
  | e =>
      t <- now;;
      limit <- lift (minus_five_minutes e);;
      lift (now_gt t limit)
  end.

Definition _refresh_token_if_needed : M unit :=
  s <- get_self;;
  if dev_mode s then ret tt else
  stale <- needs_refresh s;;
  if stale then login else ret tt.

(** A signed GET of the vehicle data API, as the four read operations
    issue it. *)
Definition signed_get (ep : endpoint) (path : API -> string)
    (params : gmap string pyval) : M pyval :=
  s <- get_self;;
  let u := api_url (brand s) +:+ path s in
  hdrs <- _default_aws_headers (api_key (brand s));;
  resp <- sess_request
    {| req_endpoint := ep;
       req_method := "GET";
       req_url := u;
       req_params := params;
       req_headers := dict_or hdrs content_type_json;
       req_json := None;
       req_auth := aws_auth s |};;
  json resp.

Definition list_vehicles : M pyval :=
  s <- get_self;;
  if dev_mode s then
    doc <- load_fixture "test_list.json";;
    lift (subscript doc "vehicles")
  else
    _refresh_token_if_needed;;;
    doc <- signed_get EpListVehicles
      (fun s => "/v4/accounts/" +:+ py_str E (uid s) +:+ "/vehicles")
      {[ "stage" := PStr "ALL" ]};;
    lift (subscript doc "vehicles").

Definition get_vehicle (vin : string) : M pyval :=
  s <- get_self;;
  if dev_mode s then
    load_fixture ("test_vehicle_" +:+ vin +:+ ".json")
  else
    _refresh_token_if_needed;;;
    signed_get EpVehicle
      (fun s => "/v2/accounts/" +:+ py_str E (uid s) +:+ "/vehicles/" +:+ vin
                +:+ "/status")
      ∅.

Definition get_vehicle_status (vin : string) : M pyval :=
  s <- get_self;;
  if dev_mode s then
    load_fixture ("test_vehicle_status_" +:+ vin +:+ ".json")
  else
    _refresh_token_if_needed;;;
    signed_get EpVehicleStatus
      (fun s => "/v1/accounts/" +:+ py_str E (uid s) +:+ "/vehicles/" +:+ vin
                +:+ "/remote/status")
      ∅.

Definition get_vehicle_location (vin : string) : M pyval :=
  s <- get_self;;
  if dev_mode s then
    load_fixture ("test_vehicle_location_" +:+ vin +:+ ".json")
  else
    _refresh_token_if_needed;;;
    signed_get EpVehicleLocation
      (fun s => "/v1/accounts/" +:+ py_str E (uid s) +:+ "/vehicles/" +:+ vin
                +:+ "/location/lastknown")
      ∅.

(** A signed POST with a JSON body, as [command] issues it twice. *)
Definition signed_post (ep : endpoint) (u key : string) (data : pyval)
    : M pyval :=
  s <- get_self;;
  hdrs <- _default_aws_headers key;;
  resp <- sess_request
    {| req_endpoint := ep;
       req_method := "POST";
       req_url := u;
       req_params := ∅;
       req_headers := dict_or hdrs content_type_json;
       req_json := Some data;
       req_auth := aws_auth s |};;
  json resp.

(** The verdict on the answer of the command endpoint, the last three
    lines of [command]. *)
Definition check_command_response (r : pyval) : M unit :=
  has_status <- lift (py_in "responseStatus" r);;
  rejected <- (if negb has_status then ret true
               else st <- lift (subscript r "responseStatus");;
                    ret (ne_str st "pending"));;
  if rejected then
    error <- lift (py_get r "debugMsg" (PStr "unknown error"));;
    raise (Exception_ ("command queuing failed: " +:+ py_str E error))
  else ret tt.

Definition command (vin : string) (cmd : Command) : M unit :=
  s <- get_self;;
  if dev_mode s then ret tt else
  let data := PDict {[ "pin" := PStr (b64encode (pin s)) ]} in
  _refresh_token_if_needed;;;
  s <- get_self;;
  r <- signed_post EpPinAuth
    (auth_url (brand s) +:+ "/v1/accounts/" +:+ py_str E (uid s)
       +:+ "/ignite/pin/authenticate")
    (auth_api_key (brand s)) data;;
  has_token <- lift (py_in "token" r);;
  if negb has_token then raise (Exception_ "authentication failed") else
  tok <- lift (subscript r "token");;
  let data := PDict {[ "command" := PStr (name cmd); "pinAuth" := tok ]} in
  r <- signed_post EpCommand
    (api_url (brand s) +:+ "/v1/accounts/" +:+ py_str E (uid s)
       +:+ "/vehicles/" +:+ vin +:+ "/" +:+ url cmd)
    (api_key (brand s)) data;;
  check_command_response r.

End Methods.

(** ** Observations on traces *)

Definition endpoint_eqb (a b : endpoint) : bool :=
  match a, b with
  | EpBootstrap, EpBootstrap | EpLogin, EpLogin | EpGetJWT, EpGetJWT
  | EpToken, EpToken | EpListVehicles, EpListVehicles
  | EpVehicle, EpVehicle | EpVehicleStatus, EpVehicleStatus
  | EpVehicleLocation, EpVehicleLocation | EpPinAuth, EpPinAuth
  | EpCommand, EpCommand => true
  | _, _ => false
  end.

(** How many requests of a trace went to endpoint [ep]. *)
Fixpoint requests_to (ep : endpoint) (tr : list event) : nat :=
  match tr with
  | [] => 0
  | EvHttp r :: rest =>
      ((if endpoint_eqb ep (req_endpoint r) then 1 else 0) + requests_to ep rest)%nat
  | _ :: rest => requests_to ep rest
  end.

(** The endpoint of the most recent request of a trace. *)
Fixpoint last_request (tr : list event) : option endpoint :=
  match tr with
  | [] => None
  | EvHttp r :: _ => Some (req_endpoint r)
  | _ :: rest => last_request rest
  end.

(** The four HTTP hops of the login chain. *)
Definition is_login_endpoint (ep : endpoint) : bool :=
  match ep with
  | EpBootstrap | EpLogin | EpGetJWT | EpToken => true
  | _ => false
  end.

(** The hops whose answer [login] checks for [statusCode] 200. *)
Definition is_status_checked (ep : endpoint) : bool :=
  match ep with
  | EpBootstrap | EpLogin | EpGetJWT => true
  | _ => false
  end.

(** An effect that the freshness check and [login] may perform: anything
    but a request to the vehicle, PIN or command endpoints. *)
Definition login_event (ev : event) : Prop :=
  match ev with
  | EvHttp r => is_login_endpoint (req_endpoint r) = true
  | _ => True
  end.

(** [login_run tr0 tr]: [tr] extends [tr0] by login effects only. *)
Inductive login_run (tr0 : list event) : list event -> Prop :=
| login_run_refl : login_run tr0 tr0
| login_run_step ev tr :
    login_event ev -> login_run tr0 tr -> login_run tr0 (ev :: tr).

(** [login_run_plus tr0 tr]: as [login_run], by at least one effect. *)
Definition login_run_plus (tr0 tr : list event) : Prop :=
  exists ev rest, tr = ev :: rest /\ login_event ev /\ login_run tr0 rest.

(** The attributes no method assigns. *)
Definition same_config (s s' : API) : Prop :=
  email s' = email s /\ password s' = password s /\ pin s' = pin s
  /\ brand s' = brand s /\ dev_mode s' = dev_mode s.

(** The Python class of an exception, as [except] clauses see it. *)
Inductive exn_class : Type :=
| ClsException
| ClsKeyError
| ClsTypeError
| ClsAttributeError
| ClsJSONDecodeError
| ClsRequestException
| ClsClientError
| ClsFileNotFoundError
| ClsOverflowError
| ClsBotoCoreError.

Definition class_of (e : exn) : exn_class :=
  match e with
  | Exception_ _ => ClsException
  | KeyError _ => ClsKeyError
  | TypeError => ClsTypeError
  | AttributeError _ => ClsAttributeError
  | JSONDecodeError => ClsJSONDecodeError
  | RequestException _ => ClsRequestException
  | ClientError _ => ClsClientError
  | FileNotFoundError _ => ClsFileNotFoundError
  | OverflowError => ClsOverflowError
  | BotoCoreError _ => ClsBotoCoreError
  end.

(** What a caller can tell from the message of an [Exception]: the step
    whose answer was refused. *)
Definition step_of (e : exn) : option endpoint :=
  match e with
  | Exception_ msg =>
      if String.eqb msg "bootstrap failed" then Some EpBootstrap
      else if String.eqb msg "login failed" then Some EpLogin
      else if String.eqb msg "unable to obtain JWT" then Some EpGetJWT
      else if String.eqb msg "authentication failed" then Some EpPinAuth
      else if starts_with "command queuing failed: " msg then Some EpCommand
      else None
  | _ => None
  end.

(** [explained e tr]: when [e] is an explicit [Exception], the last
    effect of [tr] is the request its message names. *)
Definition explained (e : exn) (tr : list event) : Prop :=
  class_of e = ClsException ->
  exists req rest, tr = EvHttp req :: rest /\ step_of e = Some (req_endpoint req).

(** ** Weakest preconditions *)

(** [wp m Q R w]: run from [w], [m] either returns [a] in a world
    satisfying [Q a] or raises [e] in a world satisfying [R e]. *)
Definition wp {A : Type} (m : M A) (Q : A -> world -> Prop)
    (R : exn -> world -> Prop) (w : world) : Prop :=
  match m w with
  | (Ok a, w') => Q a w'
  | (Raised e, w') => R e w'
  end.

Arguments wp : simpl never.

(** [issued_by_run E w' x]: the run that led to [w'] ended with the call
    of the federation service, and [x] is the [Expiration] of the
    credentials that call returned. *)
Definition issued_by_run (E : env) (w' : world) (x : pyval) : Prop :=
  exists i t rest answer creds,
    trace w' = EvCognito i t :: rest
    /\ get_credentials_for_identity E rest i t = inr answer
    /\ subscript answer "Credentials" = Ok creds
    /\ subscript creds "Expiration" = Ok x.

(** [primary_login_gave E w w' u]: in the run from [w] to [w'] the
    primary login was sent and answered with [statusCode] 200 and
    [UID] [u]; that is when line 81 stores [u]. *)
Definition primary_login_gave (E : env) (w w' : world) (u : pyval) : Prop :=
  exists post r2 mid a2 d2 sc,
    trace w' = (post ++ EvHttp r2 :: mid ++ trace w)%list
    /\ req_endpoint r2 = EpLogin
    /\ transport E (mid ++ trace w)%list r2 = inr a2
    /\ body a2 = Some d2
    /\ subscript d2 "statusCode" = Ok sc
    /\ ne_int sc 200 = false
    /\ subscript d2 "UID" = Ok u.

(** What a failed [login] leaves behind. *)
Definition login_frame (E : env) (w : world) (e : exn) (w' : world) : Prop :=
  expire_time (self w') = expire_time (self w)
  /\ (e <> KeyError "Expiration" -> aws_auth (self w') = aws_auth (self w))
  /\ (e = Exception_ "bootstrap failed" \/ e = Exception_ "login failed" ->
      uid (self w') = uid (self w))
  /\ (forall u, primary_login_gave E w w' u -> uid (self w') = u)
  /\ (uid (self w') = uid (self w) \/ exists u, primary_login_gave E w w' u).

(** The two outcomes of the freshness check, seen from the world [w] it
    started in. *)
Definition refresh_ok (w : world) (_ : unit) (w' : world) : Prop :=
  same_config (self w) (self w') /\ login_run (trace w) (trace w').

Definition refresh_failed (w : world) (e : exn) (w' : world) : Prop :=
  same_config (self w) (self w')
  /\ login_run_plus (trace w) (trace w')
  /\ explained e (trace w').

(** What a read operation makes of the transport's answer: [pick] is
    applied to the JSON body. *)
Definition read_outcome (answer : string + response)
    (pick : pyval -> result pyval) : result pyval :=
  match answer with
  | inl tag => Raised (RequestException tag)
  | inr resp =>
      match body resp with
      | None => Raised JSONDecodeError
      | Some d => pick d
      end
  end.

(** The message of a refused command. *)
Definition rejection (E : env) (d : gmap string pyval) : exn :=
  Exception_ ("command queuing failed: "
              +:+ py_str E (default (PStr "unknown error") (d !! "debugMsg"))).

(** [accepted E w']: the run ended on a request to the command endpoint
    that was answered by a document with [responseStatus] "pending". *)
Definition accepted (E : env) (w' : world) : Prop :=
  exists req rest resp d,
    trace w' = EvHttp req :: rest /\ req_endpoint req = EpCommand
    /\ transport E rest req = inr resp /\ body resp = Some (PDict d)
    /\ d !! "responseStatus" = Some (PStr "pending").

(** [refused E e w']: if the run ended on a request to the command
    endpoint that was answered by a document, the document is not
    "pending" and [e] is the rejection built from it. *)
Definition refused (E : env) (e : exn) (w' : world) : Prop :=
  forall req rest resp d,
    trace w' = EvHttp req :: rest -> req_endpoint req = EpCommand ->
    transport E rest req = inr resp -> body resp = Some (PDict d) ->
    d !! "responseStatus" <> Some (PStr "pending") /\ e = rejection E d.

(** ** Sample configurations *)

(** UTC, and a [datetime] in it. *)
Definition utc : tzinfo := {| utcoffset := fun _ _ => 0 |}.

Definition utc_time (t : Z) : pyval :=
  PTime {| wall := t; fold := false; tz := Some utc |}.

(** An environment that answers by endpoint, with a fixed clock, in which
    the federation client can always be built. *)
Definition scripted (t rnd : Z) (answers : endpoint -> string + response)
    (creds : string + pyval) : env :=
  {| clock := fun _ => t;
     urandom := fun _ => rnd;
     transport := fun _ r => answers (req_endpoint r);
     get_credentials_for_identity := fun _ _ _ => creds;
     boto3_client := fun _ _ _ => None;
     fixture := fun _ => None;
     py_repr := fun _ => "<object>" |}.

Definition reply (code : Z) (doc : pyval) : string + response :=
  inr {| status_code := code; body := Some doc |}.

Definition doc (fields : list (string * pyval)) : pyval :=
  PDict (list_to_map fields).

(** Replace the answer of one endpoint. *)
Definition answer (ep : endpoint) (r : string + response)
    (base : endpoint -> string + response) : endpoint -> string + response :=
  fun x => if endpoint_eqb ep x then r else base x.

(** An identity provider that accepts the login and returns account
    ["new"], with a JWT exchange of application status [jwt_status]. *)
Definition login_answers (jwt_status : Z) (ep : endpoint) : string + response :=
  match ep with
  | EpBootstrap => reply 200 (doc [("statusCode", PInt 200)])
  | EpLogin =>
      reply 200 (doc [("statusCode", PInt 200); ("UID", PStr "new");
                      ("sessionInfo", doc [("login_token", PStr "lt")])])
  | EpGetJWT =>
      reply 200 (doc [("statusCode", PInt jwt_status); ("id_token", PStr "jwt")])
  | EpToken => reply 200 (doc [("IdentityId", PStr "id"); ("Token", PStr "ft")])
  | _ => inl "no route"
  end.

(** A federation service that issues credentials expiring at [e]. *)
Definition credentials (e : pyval) : string + pyval :=
  inr (doc [("Credentials",
             doc [("AccessKeyId", PStr "A2"); ("SecretKey", PStr "S2");
                  ("SessionToken", PStr "T2"); ("Expiration", e)])]).

Definition minute : Z := 60 * 1000000.

(** An environment in which every effect takes a minute, the identity
    provider accepts the login, and the federation service issues
    credentials that last ten minutes from the call. *)
Definition renewing : env :=
  {| clock := fun tr => minute * Z.of_nat (length tr);
     urandom := fun _ => 0;
     transport := fun _ r => login_answers 200 (req_endpoint r);
     get_credentials_for_identity := fun tr _ _ =>
       credentials (utc_time (minute * Z.of_nat (length tr) + 10 * minute));
     boto3_client := fun _ _ _ => None;
     fixture := fun _ => None;
     py_repr := fun _ => "<object>" |}.

Definition sample_brand : Brand :=
  {| region := "eu-west-1";
     login_api_key := "LK";
     api_key := "AK";
     login_url := "https://login.example";
     token_url := "https://token.example";
     api_url := "https://api.example";
     auth_api_key := "XK";
     auth_url := "https://auth.example" |}.

Definition sample_api (dev : bool) : API :=
  init "user@example.org" "secret" "1234" sample_brand dev.

Definition sample_signer : AWSSigV4 :=
  {| service := "execute-api"; sig_region := "eu-west-1";
     aws_access_key_id := PStr "A"; aws_secret_access_key := PStr "S";
     aws_session_token := PStr "T" |}.

(** A client that logged in before: account ["old"], credentials expiring
    at [e]. *)
Definition logged_in (e : pyval) : API :=
  set_expire_time e (set_aws_auth sample_signer
    (set_uid (PStr "old") (sample_api false))).

Definition fresh_world (s : API) : world := {| self := s; trace := [] |}.

Definition sample_command : Command := {| name := "ROLIGHTS"; url := "remote" |}.

(** A client whose credentials are exactly the margin away from expiry
    when the clock reads 0. *)
Definition command_world : world :=
  fresh_world (logged_in (utc_time five_minutes)).

(** An environment for [command]: the answers of the PIN and of the
    command endpoint, each with HTTP status 200. *)
Definition command_env (pin_answer command_answer : pyval) : env :=
  scripted 0 7
    (answer EpPinAuth (reply 200 pin_answer)
       (answer EpCommand (reply 200 command_answer) (login_answers 200)))
    (inl "down").

(** ** Calls and what they send *)

(** The endpoints of the requests of a trace, newest first. *)
Fixpoint endpoints_of (tr : list event) : list endpoint :=
  match tr with
  | [] => []
  | EvHttp r :: rest => req_endpoint r :: endpoints_of rest
  | _ :: rest => endpoints_of rest
  end.

(** The HTTP hops of [login], in the order of the source. *)
Definition login_chain : list endpoint :=
  [EpBootstrap; EpLogin; EpGetJWT; EpToken].

(** [run_of P tr0 tr]: [tr] extends [tr0] by effects that satisfy [P]. *)
Inductive run_of (P : event -> Prop) (tr0 : list event) : list event -> Prop :=
| run_of_refl : run_of P tr0 tr0
| run_of_step ev tr : P ev -> run_of P tr0 tr -> run_of P tr0 (ev :: tr).

(** A request of the login chain: not signed, no JSON body except at the
    token endpoint, and the password only in the primary login. *)
Definition login_request (ev : event) : Prop :=
  match ev with
  | EvHttp r =>
      is_login_endpoint (req_endpoint r) = true
      /\ req_auth r = None
      /\ (req_endpoint r <> EpLogin -> req_params r !! "password" = None)
      /\ (req_endpoint r <> EpToken -> req_json r = None)
  | _ => True
  end.

(** A request to the vehicle, PIN or command endpoints, as a client in
    state [s] sends it: the signer of [s], JSON content type, the key of
    the endpoint, and a URL that names the account of [s]. *)
Definition signed_request (E : env) (s : API) (ev : event) : Prop :=
  match ev with
  | EvHttp r =>
      is_login_endpoint (req_endpoint r) = false
      /\ req_auth r = aws_auth s
      /\ req_headers r !! "content-type" = Some "application/json"
      /\ req_headers r !! "x-api-key"
         = Some (match req_endpoint r with
                 | EpPinAuth => auth_api_key (brand s)
                 | _ => api_key (brand s)
                 end)
      /\ exists version rest,
           req_url r
           = (match req_endpoint r with
              | EpPinAuth => auth_url (brand s)
              | _ => api_url (brand s)
              end)
             +:+ "/v" +:+ String version ("/accounts/" +:+ py_str E (uid s) +:+ rest)
  | EvUuid => True
  | _ => False
  end.

(** One call of a method of the client. *)
Inductive operation : Type :=
| OpLogin
| OpRefresh
| OpListVehicles
| OpGetVehicle (vin : string)
| OpGetVehicleStatus (vin : string)
| OpGetVehicleLocation (vin : string)
| OpCommand (vin : string) (cmd : Command).

(** The call and its return value; a method without [return] gives
    [None]. *)
Definition perform (E : env) (op : operation) : M pyval :=
  match op with
  | OpLogin => login E;;; ret PNone
  | OpRefresh => _refresh_token_if_needed E;;; ret PNone
  | OpListVehicles => list_vehicles E
  | OpGetVehicle vin => get_vehicle E vin
  | OpGetVehicleStatus vin => get_vehicle_status E vin
  | OpGetVehicleLocation vin => get_vehicle_location E vin
  | OpCommand vin cmd => command E vin cmd;;; ret PNone
  end.

(** The calls that start with the freshness check. *)
Definition checks_freshness (op : operation) : bool :=
  match op with
  | OpLogin => false
  | _ => true
  end.

(** The four read operations and the endpoint each one reads. *)
Definition read_endpoint (op : operation) : option endpoint :=
  match op with
  | OpListVehicles => Some EpListVehicles
  | OpGetVehicle _ => Some EpVehicle
  | OpGetVehicleStatus _ => Some EpVehicleStatus
  | OpGetVehicleLocation _ => Some EpVehicleLocation
  | _ => None
  end.

(** [datetime] values, the only ones the freshness check can compare. *)
Definition is_datetime (v : pyval) : bool :=
  match v with
  | PTime _ => true
  | _ => false
  end.

(** [command_chain E cmd w w']: if the run from [w] ended on a request
    to the command endpoint, that request follows an answered PIN
    request and forwards its token. *)
Definition command_chain (E : env) (cmd : Command) (w w' : world) : Prop :=
  forall creq rest,
    trace w' = EvHttp creq :: rest ->
    req_endpoint creq = EpCommand ->
    exists preq rest2 presp d tok,
      rest = EvUuid :: EvHttp preq :: rest2
      /\ req_endpoint preq = EpPinAuth
      /\ req_json preq = Some (PDict {[ "pin" := PStr (b64encode (pin (self w))) ]})
      /\ transport E rest2 preq = inr presp
      /\ body presp = Some d
      /\ subscript d "token" = Ok tok
      /\ req_json creq
         = Some (PDict {[ "command" := PStr (name cmd); "pinAuth" := tok ]}).

(** What the part of a call after a passed freshness check does. *)
Definition tail_effects (E : env) (w1 w' : world) : Prop :=
  self w' = self w1
  /\ run_of (signed_request E (self w1)) (trace w1) (trace w')
  /\ forall ep,
       (requests_to ep (trace w')
        <= requests_to ep (trace w1) + (if is_login_endpoint ep then 0 else 1))%nat.

(** ** Freshness, as a caller sees it *)

(** [fresh_for t x]: [x] is an aware [datetime] whose instant is at least
    the margin after [t]. *)
Definition fresh_for (t : Z) (x : pyval) : Prop :=
  exists d i, x = PTime d /\ instant d = Some i /\ t + five_minutes <= i.

(** [steady d]: the tzinfo of [d] gives the wall-clock reading five
    minutes before [d] the offset it gives [d] itself, as every
    fixed-offset zone does. *)
Definition steady (d : datetime) : Prop :=
  match tz d with
  | Some z =>
      utcoffset z (wall d - five_minutes) false = utcoffset z (wall d) (fold d)
  | None => True
  end.

(** A zone that falls back one hour at wall-clock reading [b + 1 h]: two
    hours ahead of UTC before [b], one hour from [b + 1 h] on, and in the
    repeated hour between them two or one according to the fold. *)
Definition fall_back_zone (b : Z) : tzinfo :=
  {| utcoffset := fun reading second =>
       if (reading <? b)%Z then 2 * 3600000000
       else if (reading <? b + 3600000000)%Z then
              (if second then 3600000000 else 2 * 3600000000)
       else 3600000000 |}.

(** A zone that springs forward one hour at wall-clock reading [b]: one
    hour ahead of UTC before [b], two hours from [b + 1 h] on, and for the
    skipped readings between them one or two according to the fold. *)
Definition spring_forward_zone (b : Z) : tzinfo :=
  {| utcoffset := fun reading second =>
       if (reading <? b)%Z then 3600000000
       else if (reading <? b + 3600000000)%Z then
              (if second then 2 * 3600000000 else 3600000000)
       else 2 * 3600000000 |}.

(** The trace once [login] has its federation client. *)
Definition after_client (w : world) : list event :=
  match cognito_client (self w) with
  | None => EvClient "cognito-identity" (region (brand (self w))) :: trace w
  | Some _ => trace w
  end.

(** The number an uppercase hexadecimal digit denotes. *)
Definition hex_value (c : ascii) : Z :=
  let n := Z.of_N (N_of_ascii c) in
  if ((48 <=? n) && (n <=? 57))%Z then n - 48
  else if ((65 <=? n) && (n <=? 70))%Z then n - 55
  else 0.


(** * Properties *)

(** ** Rules of the weakest precondition *)

Section WpRules.

Context {A B : Type}.

Lemma wp_ret (a : A) Q R w : Q a w -> wp (ret a) Q R w.
Proof. exact (fun H => H). Qed.

Lemma wp_raise (e : exn) (Q : A -> world -> Prop) R w :
  R e w -> wp (raise e) Q R w.
Proof. exact (fun H => H). Qed.

Lemma wp_lift (r : result A) Q R w :
  match r with Ok a => Q a w | Raised e => R e w end -> wp (lift r) Q R w.
Proof. exact (fun H => H). Qed.

Lemma wp_lift_cases (r : result A) Q R w :
  (forall a, r = Ok a -> Q a w) -> (forall e, r = Raised e -> R e w) ->
  wp (lift r) Q R w.
Proof. intros HQ HR. apply wp_lift. destruct r; auto. Qed.

Lemma wp_bind (m : M A) (f : A -> M B) Q R w :
  wp m (fun a w' => wp (f a) Q R w') R w -> wp (bind m f) Q R w.
Proof.
  unfold wp, bind. destruct (m w) as [[a | e] w']; auto.
Qed.

Lemma wp_mono (m : M A) (Q Q' : A -> world -> Prop) (R R' : exn -> world -> Prop) w :
  wp m Q R w ->
  (forall a w', Q a w' -> Q' a w') ->
  (forall e w', R e w' -> R' e w') ->
  wp m Q' R' w.
Proof.
  unfold wp. destruct (m w) as [[a | e] w']; auto.
Qed.

Lemma wp_returns (m : M A) Q R w a w' :
  wp m Q R w -> m w = (Ok a, w') -> Q a w'.
Proof. unfold wp. intros H Hm. now rewrite Hm in H. Qed.

Lemma wp_raises (m : M A) Q R w e w' :
  wp m Q R w -> m w = (Raised e, w') -> R e w'.
Proof. unfold wp. intros H Hm. now rewrite Hm in H. Qed.

End WpRules.

Lemma wp_get_self Q R w : Q (self w) w -> wp get_self Q R w.
Proof. exact (fun H => H). Qed.

Lemma wp_modify_self f (Q : unit -> world -> Prop) R w :
  Q tt {| self := f (self w); trace := trace w |} -> wp (modify_self f) Q R w.
Proof. exact (fun H => H). Qed.

Lemma wp_now E Q R w :
  Q (clock E (trace w)) (emit EvNow w) -> wp (now E) Q R w.
Proof. exact (fun H => H). Qed.

Lemma wp_uuid4 E Q R w :
  Q (urandom E (trace w)) (emit EvUuid w) -> wp (uuid4 E) Q R w.
Proof. exact (fun H => H). Qed.

Lemma wp_sess_request E r Q R w :
  (forall resp, transport E (trace w) r = inr resp -> Q resp (emit (EvHttp r) w)) ->
  (forall tag, transport E (trace w) r = inl tag ->
     R (RequestException tag) (emit (EvHttp r) w)) ->
  wp (sess_request E r) Q R w.
Proof.
  unfold wp, sess_request. intros HQ HR.
  destruct (transport E (trace w) r) as [tag | resp]; auto.
Qed.

Lemma wp_json resp Q R w :
  (forall v, body resp = Some v -> Q v w) ->
  (body resp = None -> R JSONDecodeError w) ->
  wp (json resp) Q R w.
Proof.
  unfold wp, json. intros HQ HR. destruct (body resp); cbn; auto.
Qed.

Lemma wp_cognito E i t Q R w :
  (forall doc, get_credentials_for_identity E (trace w) i t = inr doc ->
     Q doc (emit (EvCognito i t) w)) ->
  (forall tag, get_credentials_for_identity E (trace w) i t = inl tag ->
     R (ClientError tag) (emit (EvCognito i t) w)) ->
  wp (cognito_get_credentials E i t) Q R w.
Proof.
  unfold wp, cognito_get_credentials. intros HQ HR.
  destruct (get_credentials_for_identity E (trace w) i t); auto.
Qed.

Lemma wp_create_client E service reg Q R w :
  (boto3_client E (trace w) service reg = None ->
     Q (service, reg) (emit (EvClient service reg) w)) ->
  (forall tag, boto3_client E (trace w) service reg = Some tag ->
     R (BotoCoreError tag) (emit (EvClient service reg) w)) ->
  wp (create_client E service reg) Q R w.
Proof.
  unfold wp, create_client. intros HQ HR.
  destruct (boto3_client E (trace w) service reg); auto.
Qed.

Lemma wp_subscript v key Q R w :
  (forall x, subscript v key = Ok x -> Q x w) ->
  (forall e, subscript v key = Raised e ->
     (e = KeyError key \/ e = TypeError) -> R e w) ->
  wp (lift (subscript v key)) Q R w.
Proof.
  intros HQ HR. apply wp_lift.
  destruct (subscript v key) as [x | e] eqn:Hs; auto.
  apply HR; auto.
  unfold subscript in Hs. destruct v; try (inversion Hs; auto; fail).
  destruct (d !! key); inversion Hs; auto.
Qed.

Lemma wp_default_aws_headers E key Q R w :
  (forall h : gmap string string,
     h !! "clientrequestid" = Some (correlation_id (urandom E (trace w))) ->
     Q h (emit EvUuid w)) ->
  wp (_default_aws_headers E key) Q R w.
Proof.
  intros HQ. unfold _default_aws_headers.
  apply wp_bind, wp_uuid4, wp_ret, HQ.
  generalize (correlation_id (urandom E (trace w))). intros c.
  reflexivity.
Qed.

(** ** Parameter merging *)

Lemma lookup_dict_or {V : Type} (a b : gmap string V) (k : string) :
  dict_or a b !! k = match b !! k with Some v => Some v | None => a !! k end.
Proof.
  unfold dict_or. rewrite lookup_union_with.
  destruct (a !! k), (b !! k); reflexivity.
Qed.

Lemma dom_default_params (b : Brand) :
  dom (default_params b) =
    ({[ "targetEnv"; "loginMode"; "sdk"; "authMode"; "sdkBuild"; "format";
        "APIKey" ]} : gset string).
Proof.
  unfold default_params. rewrite !dom_insert_L, ?dom_singleton_L, ?dom_empty_L. set_solver.
Qed.

(** C9: in the merged dictionary a default key holds the default value,
    whatever [params] held for it, and every other key holds what
    [params] holds; the default keys are the seven fixed names. *)
Theorem with_default_params_precedence (s : API)
    (params : gmap string pyval) (k : string) :
  _with_default_params s params !! k =
    (if bool_decide (k ∈ dom (default_params (brand s)))
     then default_params (brand s) !! k
     else params !! k)
  /\ dom (default_params (brand s)) =
       ({[ "targetEnv"; "loginMode"; "sdk"; "authMode"; "sdkBuild"; "format";
           "APIKey" ]} : gset string).
Proof.
  split; [| apply dom_default_params].
  unfold _with_default_params. rewrite lookup_dict_or.
  case_bool_decide as Hk.
  - apply elem_of_dom in Hk as [v Hv]. now rewrite Hv.
  - apply not_elem_of_dom in Hk. now rewrite Hk.
Qed.

Example with_default_params_collision :
  _with_default_params (sample_api false)
    {[ "format" := PStr "xml"; "loginID" := PStr "me" ]}
  = {[ "targetEnv" := PStr "jssdk"; "loginMode" := PStr "standard";
       "sdk" := PStr "js_latest"; "authMode" := PStr "cookie";
       "sdkBuild" := PStr "12234"; "format" := PStr "json";
       "APIKey" := PStr "LK"; "loginID" := PStr "me" ]}.
Proof. apply map_eq. intros k. vm_compute. reflexivity. Qed.

(** ** Correlation ids *)

Lemma upper_hex_digit (d : Z) : is_upper_hex (upper_ascii (hex_digit d)) = true.
Proof.
  destruct d as [| p | p]; [reflexivity | | reflexivity].
  do 5 (try destruct p as [p | p |]); reflexivity.
Qed.

Lemma length_upper (s : string) : String.length (upper s) = String.length s.
Proof. induction s as [| c r IH]; cbn; congruence. Qed.

Lemma length_hex_of (n : nat) (v : Z) : String.length (hex_of n v) = n.
Proof. induction n as [| k IH]; cbn [hex_of String.length]; congruence. Qed.

Lemma all_upper_hex_of (n : nat) (v : Z) :
  all_chars is_upper_hex (upper (hex_of n v)) = true.
Proof.
  induction n as [| k IH]; [reflexivity |].
  cbn [hex_of upper all_chars]. now rewrite upper_hex_digit, IH.
Qed.

Lemma length_take_str (n : nat) (s : string) :
  (n <= String.length s)%nat -> String.length (take_str n s) = n.
Proof.
  revert s. induction n as [| k IH]; intros s Hn; [reflexivity |].
  destruct s as [| c r]; cbn in *; [lia |]. rewrite IH; lia.
Qed.

Lemma all_chars_take_str (p : ascii -> bool) (n : nat) (s : string) :
  all_chars p s = true -> all_chars p (take_str n s) = true.
Proof.
  revert s. induction n as [| k IH]; intros s Hs; [reflexivity |].
  destruct s as [| c r]; [reflexivity |]. cbn in *.
  apply andb_prop in Hs as [Hc Hr]. now rewrite Hc, IH.
Qed.

Lemma correlation_id_length (rnd : Z) :
  String.length (correlation_id rnd) = 16%nat.
Proof.
  unfold correlation_id, uuid_hex.
  apply length_take_str. rewrite length_upper, length_hex_of. lia.
Qed.

Lemma correlation_id_hex (rnd : Z) :
  all_chars is_upper_hex (correlation_id rnd) = true.
Proof.
  unfold correlation_id, uuid_hex. apply all_chars_take_str, all_upper_hex_of.
Qed.

Lemma get_take_str (n k : nat) (s : string) :
  (k < n)%nat -> String.get k (take_str n s) = String.get k s.
Proof.
  revert k s. induction n as [| n IH]; intros k s Hk; [lia |].
  destruct s as [| c r]; [reflexivity |].
  destruct k as [| k]; [reflexivity |]. cbn. apply IH. lia.
Qed.

Lemma get_upper (k : nat) (s : string) :
  String.get k (upper s) = option_map upper_ascii (String.get k s).
Proof.
  revert k. induction s as [| c r IH]; intros k; [reflexivity |].
  destruct k as [| k]; [reflexivity |]. cbn. apply IH.
Qed.

Lemma get_hex_of (n k : nat) (v : Z) :
  (k < n)%nat ->
  String.get k (hex_of n v)
  = Some (hex_digit ((v / 16 ^ Z.of_nat (n - 1 - k)) mod 16)).
Proof.
  revert k. induction n as [| n IH]; intros k Hk; [lia |].
  destruct k as [| k]; cbn [hex_of String.get].
  - replace (S n - 1 - 0)%nat with n by lia. reflexivity.
  - rewrite IH by lia. replace (S n - 1 - S k)%nat with (n - 1 - k)%nat by lia.
    reflexivity.
Qed.

Lemma hex_value_upper_digit (d : Z) :
  0 <= d < 16 -> hex_value (upper_ascii (hex_digit d)) = d.
Proof.
  intros Hd. destruct d as [| p | p]; [reflexivity | | lia].
  do 4 (try destruct p as [p | p |]); try reflexivity; lia.
Qed.

Lemma nibble_testbit (v j b : Z) :
  0 <= j -> 0 <= b < 4 ->
  Z.testbit ((v / 16 ^ j) mod 16) b = Z.testbit v (4 * j + b).
Proof.
  intros Hj Hb.
  change 16 with (2 ^ 4). rewrite <- Z.pow_mul_r by lia.
  rewrite <- Z.shiftr_div_pow2 by lia.
  rewrite Z.mod_pow2_bits_low by lia.
  rewrite Z.shiftr_spec by lia. f_equal. lia.
Qed.

(** Equal correlation ids come from UUIDs with the same upper 64 bits. *)
Lemma correlation_id_upper_bits (rnd rnd' : Z) :
  correlation_id rnd = correlation_id rnd' ->
  forall n, 64 <= n < 128 ->
  Z.testbit (uuid4_int rnd) n = Z.testbit (uuid4_int rnd') n.
Proof.
  intros Hid n Hn.
  assert (Hdiv : n = 4 * (n / 4) + n mod 4) by (apply Z.div_mod; lia).
  assert (Hmod : 0 <= n mod 4 < 4) by (apply Z.mod_pos_bound; lia).
  generalize dependent (n mod 4). generalize dependent (n / 4).
  intros j b -> Hb.
  assert (Hget : String.get (Z.to_nat (31 - j)) (correlation_id rnd)
                 = String.get (Z.to_nat (31 - j)) (correlation_id rnd'))
    by now rewrite Hid.
  unfold correlation_id, uuid_hex in Hget.
  rewrite !get_take_str, !get_upper, !get_hex_of in Hget by lia.
  cbn [option_map] in Hget. injection Hget as Hdigit.
  replace (Z.of_nat (31 - Z.to_nat (31 - j))) with j in Hdigit by lia.
  apply (f_equal hex_value) in Hdigit.
  assert (Hv : forall v,
             hex_value (upper_ascii (hex_digit ((v / 16 ^ j) mod 16)))
             = (v / 16 ^ j) mod 16)
    by (intros v; apply hex_value_upper_digit, Z.mod_pos_bound; lia).
  rewrite 2!Hv in Hdigit.
  rewrite <- 2!nibble_testbit by lia. now rewrite Hdigit.
Qed.

(** The bits of the draw that [uuid4] keeps in the upper half: all but
    the version field. *)
Lemma uuid4_int_keeps_bit (rnd n : Z) :
  64 <= n < 128 -> n < 76 \/ 80 <= n ->
  Z.testbit (uuid4_int rnd) n = Z.testbit rnd n.
Proof.
  intros Hn Hfield. unfold uuid4_int. cbv zeta.
  rewrite Z.lor_spec, Z.land_spec, Z.lor_spec, Z.land_spec, !Z.lnot_spec by lia.
  rewrite Z.mod_pow2_bits_low by lia.
  change 0xf000 with (Z.shiftl 15 12). rewrite Z.shiftl_shiftl by lia.
  rewrite !Z.shiftl_spec by lia.
  assert (H1 : Z.testbit 0xc000 (n - 48) = false)
    by (apply Z.bits_above_log2; [lia | cbn; lia]).
  assert (H2 : Z.testbit 0x8000 (n - 48) = false)
    by (apply Z.bits_above_log2; [lia | cbn; lia]).
  assert (H3 : Z.testbit 15 (n - (12 + 64)) = false).
  { destruct Hfield as [Hlow | Hhigh].
    - apply Z.testbit_neg_r. lia.
    - apply Z.bits_above_log2; [lia | cbn; lia]. }
  assert (H4 : Z.testbit 4 (n - 76) = false).
  { destruct Hfield as [Hlow | Hhigh].
    - apply Z.testbit_neg_r. lia.
    - apply Z.bits_above_log2; [lia | cbn; lia]. }
  rewrite H1, H2, H3, H4. cbn. now rewrite !orb_false_r, !andb_true_r.
Qed.

(** C8: every call of [_default_aws_headers] makes one new random draw
    and returns, under [clientrequestid], the id computed from that draw:
    16 characters, each an uppercase hexadecimal digit, which determine
    the 60 bits of the draw that [uuid4] keeps in the upper half of the
    UUID, so that draws differing in one of these bits give different
    ids. *)
Theorem default_aws_headers_correlation_id (E : env) (key : string) (w : world) :
  exists h : gmap string string,
    _default_aws_headers E key w = (Ok h, emit EvUuid w)
    /\ h !! "clientrequestid" = Some (correlation_id (urandom E (trace w)))
    /\ String.length (correlation_id (urandom E (trace w))) = 16%nat
    /\ all_chars is_upper_hex (correlation_id (urandom E (trace w))) = true
    /\ (forall rnd' : Z,
          correlation_id (urandom E (trace w)) = correlation_id rnd' ->
          forall n : Z,
            64 <= n < 128 -> n < 76 \/ 80 <= n ->
            Z.testbit (urandom E (trace w)) n = Z.testbit rnd' n).
Proof.
  eexists. split; [reflexivity |]. split.
  - generalize (correlation_id (urandom E (trace w))). intros c. reflexivity.
  - split; [apply correlation_id_length |].
    split; [apply correlation_id_hex |].
    intros rnd' Hid n Hn Hfield.
    rewrite <- (uuid4_int_keeps_bit (urandom E (trace w)) n Hn Hfield).
    rewrite <- (uuid4_int_keeps_bit rnd' n Hn Hfield).
    now apply correlation_id_upper_bits.
Qed.

Example correlation_id_sample :
  correlation_id 0x0123456789abcdef0123456789abcdef = "0123456789AB4DEF".
Proof. reflexivity. Qed.

Example correlation_ids_of_two_draws :
  correlation_id 0x0123456789abcdef0123456789abcdef
  <> correlation_id 0x1123456789abcdef0123456789abcdef.
Proof. intros H. vm_compute in H. discriminate H. Qed.

(** ** Symbolic execution *)

Ltac wp_step :=
  lazymatch goal with
  | |- wp (bind _ _) _ _ _ => apply wp_bind
  | |- wp get_self _ _ _ => apply wp_get_self
  | |- wp (modify_self _) _ _ _ => apply wp_modify_self
  | |- wp (ret _) _ _ _ => apply wp_ret
  | |- wp (raise _) _ _ _ => apply wp_raise
  | |- wp (now _) _ _ _ => apply wp_now
  | |- wp (sess_request _ _) _ _ _ =>
      apply wp_sess_request; [intros ?resp ?Hresp | intros ?tag ?Htag]
  | |- wp (json _) _ _ _ =>
      apply wp_json; [intros ?doc ?Hdoc | intros ?Hdoc]
  | |- wp (lift (subscript _ _)) _ _ _ =>
      apply wp_subscript; [intros ?x ?Hx | intros ?e ?He ?Hk]
  | |- wp (_default_aws_headers _ _) _ _ _ =>
      apply wp_default_aws_headers; intros ?h ?Hh
  | |- wp (cognito_get_credentials _ _ _) _ _ _ =>
      apply wp_cognito; [intros ?doc ?Hcog | intros ?tag ?Hcog]
  | |- wp (create_client _ _ _) _ _ _ =>
      apply wp_create_client; [intros ?Hclient | intros ?tag ?Hclient]
  | |- wp (lift _) _ _ _ =>
      apply wp_lift_cases; [intros ?a ?Hlift | intros ?e ?Hlift]
  | |- wp (if ?b then _ else _) _ _ _ => destruct b eqn:?
  | |- wp (match ?x with _ => _ end) _ _ _ => destruct x eqn:?
  end; cbv beta.

Ltac wp_run := repeat wp_step.

(** ** Traces of the login chain *)

Lemma login_run_plus_weaken tr0 tr : login_run_plus tr0 tr -> login_run tr0 tr.
Proof. intros (ev & rest & -> & Hev & Hrun). now constructor. Qed.

Lemma login_run_trans tr0 tr1 tr2 :
  login_run tr0 tr1 -> login_run tr1 tr2 -> login_run tr0 tr2.
Proof. intros H01 H12. induction H12; [assumption | now constructor]. Qed.

Lemma login_run_plus_trans tr0 tr1 tr2 :
  login_run tr0 tr1 -> login_run_plus tr1 tr2 -> login_run_plus tr0 tr2.
Proof.
  intros H01 (ev & rest & -> & Hev & Hrun).
  exists ev, rest. eauto using login_run_trans.
Qed.

Lemma login_run_requests_to ep tr0 tr :
  is_login_endpoint ep = false -> login_run tr0 tr ->
  requests_to ep tr = requests_to ep tr0.
Proof.
  intros Hep Hrun. induction Hrun as [| ev tr Hev Hrun IH]; [reflexivity |].
  destruct ev as [| | r | |]; cbn; try assumption.
  cbn in Hev. destruct (endpoint_eqb ep (req_endpoint r)) eqn:Heq; [| assumption].
  destruct ep, (req_endpoint r); discriminate.
Qed.

Lemma same_config_refl s : same_config s s.
Proof. repeat split. Qed.

Lemma same_config_trans s1 s2 s3 :
  same_config s1 s2 -> same_config s2 s3 -> same_config s1 s3.
Proof.
  unfold same_config. intros (? & ? & ? & ? & ?) (? & ? & ? & ? & ?).
  repeat split; congruence.
Qed.

Lemma explained_other e tr : class_of e <> ClsException -> explained e tr.
Proof. intros H Hc. contradiction. Qed.

Lemma explained_key e key tr : e = KeyError key \/ e = TypeError -> explained e tr.
Proof. intros [-> | ->]; apply explained_other; discriminate. Qed.

Ltac login_trace :=
  first
    [ apply login_run_refl
    | apply login_run_step; [first [exact I | reflexivity] | login_trace] ].

(** ** The login chain *)

(** What [login] does to the configuration and to the trace, and how its
    explicit failures relate to the request just answered. *)
Lemma login_effects (E : env) (w : world) :
  wp (login E)
     (fun _ w' => same_config (self w) (self w')
                  /\ login_run (trace w) (trace w'))
     (fun e w' => same_config (self w) (self w')
                  /\ login_run_plus (trace w) (trace w')
                  /\ explained e (trace w'))
     w.
Proof.
  unfold login. wp_run.
  all: cbn [self trace emit].
  all: repeat match goal with |- _ /\ _ => split end.
  all: try (repeat split; fail).
  all: try login_trace.
  all: try (eapply explained_key; eassumption).
  all: try (apply explained_other; discriminate).
  all: try (do 2 eexists; split; [reflexivity | split; [first [exact I | reflexivity] | login_trace]]).
  all: try (intros _; do 2 eexists; split; reflexivity).
Qed.

Lemma subscript_raises_key v k1 k2 x e :
  subscript v k1 = Ok x -> subscript v k2 = Raised e -> e = KeyError k2.
Proof.
  destruct v; cbn; try discriminate.
  intros _. destruct (d !! k2); congruence.
Qed.

Lemma cut_new (new post mid tr : list event) (x : event) :
  (new ++ tr = post ++ x :: mid ++ tr)%list -> new = (post ++ x :: mid)%list.
Proof.
  intros H. apply (app_inv_tail tr). rewrite <- app_assoc. exact H.
Qed.

Lemma locate_head (post mid l : list event) (x e : event) :
  (post ++ x :: mid = e :: l)%list ->
  (post = [] /\ x = e /\ mid = l)
  \/ (exists p, post = e :: p /\ (p ++ x :: mid = l)%list).
Proof.
  destruct post as [| e' p]; cbn; intros H; injection H as He Hl.
  - left. repeat split; assumption.
  - right. exists p. split; [congruence | assumption].
Qed.

Lemma locate_nil (post mid : list event) (x : event) :
  (post ++ x :: mid)%list = [] -> False.
Proof. destruct post; discriminate. Qed.

(** The effects a run added to the trace [base], read off the term. *)
Ltac new_events t base :=
  lazymatch t with
  | base => constr:(@nil event)
  | ?a :: ?r => let r' := new_events r base in constr:(a :: r')
  end.

(** All the ways an effect [x] can sit in a list of effects that is
    written out. *)
Ltac locate H :=
  first
    [ apply locate_nil in H; contradiction
    | let p := fresh "p" in
      apply locate_head in H;
      destruct H as [(-> & Hfound & ->) | (p & -> & H)];
      [ | locate H ] ].

(** The effects after, and before, the primary login in a list of
    effects that is written out. *)
Ltac after_login t :=
  lazymatch t with
  | EvHttp (Build_request EpLogin _ _ _ _ _ _) :: _ => constr:(@nil event)
  | ?a :: ?r => let p := after_login r in constr:(a :: p)
  end.

Ltac before_login t base :=
  lazymatch t with
  | EvHttp (Build_request EpLogin _ _ _ _ _ _) :: ?r => new_events r base
  | _ :: ?r => before_login r base
  end.

Lemma login_failure_wp (E : env) (w : world) :
  wp (login E) (fun _ _ => True) (login_frame E w) w.
Proof.
  unfold login. wp_run; try exact I.
  all: unfold login_frame, primary_login_gave;
    cbn [self trace emit uid aws_auth expire_time
         set_uid set_aws_auth set_cognito_client].
  all: split; [reflexivity |].
  all: split;
    [ first [ intros _; reflexivity
            | intros Hne; exfalso; apply Hne;
              eapply subscript_raises_key; eassumption ] |].
  all: split;
    [ first [ intros _; reflexivity
            | intros [Hb | Hb]; try discriminate Hb;
              match goal with
              | Hk : _ = KeyError _ \/ _ = TypeError |- _ =>
                  destruct Hk; subst; discriminate
              end ] |].
  all: split.
  all: try (
    intros u (post & r2 & mid & a2 & d2 & sc2 & Htr & Hep & Htrans & Hbody
              & Hsc & Hne & Hu);
    cbn [trace emit] in Htr;
    match type of Htr with
    | ?t = _ =>
        let n := new_events t (trace w) in
        assert (Hnew : (post ++ EvHttp r2 :: mid)%list = n)
          by (symmetry; apply (cut_new _ _ _ (trace w)); exact Htr)
    end;
    clear Htr; locate Hnew;
    try discriminate Hfound;
    injection Hfound as ->; cbn in Hep; try discriminate Hep;
    cbn [app trace emit] in *; congruence).
  all: try (left; reflexivity).
  all: right; eexists;
    match goal with
    | |- exists post r2 mid a2 d2 sc, ?t = _ /\ _ =>
        let p := after_login t in
        let m := before_login t (trace w) in
        exists p; eexists; exists m
    end;
    do 3 eexists;
    cbn [trace emit app];
    (split; [reflexivity |]); (split; [reflexivity |]);
    (split; [eassumption |]); (split; [eassumption |]);
    (split; [eassumption |]); (split; [eassumption |]); eassumption.
Qed.




(** A transport failure at the bootstrap, the first failure there can be
    after the client was built, leaves the uid as it was. *)
Example login_keeps_uid_when_bootstrap_is_down :
  let E := scripted 0 0 (fun _ => inl "down") (inl "down") in
  let w := fresh_world (logged_in (utc_time 0)) in
  fst (login E w) = Raised (RequestException "down")
  /\ uid (self (snd (login E w))) = PStr "old".
Proof. vm_compute. split; reflexivity. Qed.

(** ** The freshness check *)

Lemma needs_refresh_absent (E : env) (s : API) (w : world) :
  expire_time s = PNone -> needs_refresh E s w = (Ok true, w).
Proof. intros H. unfold needs_refresh. now rewrite H. Qed.

(** What line 126 computes for a stored aware [datetime]: the reading
    five minutes before the expiry's, taken in the expiry's zone with
    fold 0, against the clock. *)
Lemma needs_refresh_aware (E : env) (s : API) (w : world)
    (d : datetime) (z : tzinfo) :
  expire_time s = PTime d -> tz d = Some z -> five_minutes <= wall d ->
  needs_refresh E s w
  = (Ok (wall d - five_minutes - utcoffset z (wall d - five_minutes) false
         <? clock E (trace w))%Z,
     emit EvNow w).
Proof.
  intros H Hz Hw. unfold needs_refresh. rewrite H.
  unfold bind, now, lift, minus_five_minutes, now_gt, instant.
  destruct (Z.ltb_spec (wall d - five_minutes) 0) as [Hlt | _]; [lia |].
  cbn [tz wall fold]. rewrite Hz. reflexivity.
Qed.

(** Within five minutes of [datetime.min] the subtraction overflows. *)
Lemma needs_refresh_overflow (E : env) (s : API) (w : world) (d : datetime) :
  expire_time s = PTime d -> wall d < five_minutes ->
  needs_refresh E s w = (Raised OverflowError, emit EvNow w).
Proof.
  intros H Hw. unfold needs_refresh. rewrite H.
  unfold bind, now, lift, minus_five_minutes.
  destruct (Z.ltb_spec (wall d - five_minutes) 0) as [_ | Hge]; [| lia].
  reflexivity.
Qed.

(** A naive expiry cannot be compared with the aware reading of the
    clock. *)
Lemma needs_refresh_naive (E : env) (s : API) (w : world) (d : datetime) :
  expire_time s = PTime d -> tz d = None -> five_minutes <= wall d ->
  needs_refresh E s w = (Raised TypeError, emit EvNow w).
Proof.
  intros H Hz Hw. unfold needs_refresh. rewrite H.
  unfold bind, now, lift, minus_five_minutes, now_gt, instant.
  destruct (Z.ltb_spec (wall d - five_minutes) 0) as [Hlt | _]; [lia |].
  cbn [tz wall fold]. rewrite Hz. reflexivity.
Qed.

(** C2 (amended): with an aware expiry stored that is not within five
    minutes of [datetime.min], the check reads the clock once and asks
    for a refresh exactly when the wall-clock reading five minutes before
    the expiry's, taken in the expiry's zone, is before now.  Where the
    zone gives that reading the offset it gives the expiry, this is
    [e - margin < now] for the instant [e] of the expiry; at
    [e - margin = now] the credential still counts as fresh. *)
Theorem needs_refresh_strict (E : env) (s : API) (w : world)
    (d : datetime) (z : tzinfo) :
  expire_time s = PTime d -> tz d = Some z -> five_minutes <= wall d ->
  exists b : bool,
    needs_refresh E s w = (Ok b, emit EvNow w)
    /\ (b = true
        <-> wall d - five_minutes - utcoffset z (wall d - five_minutes) false
            < clock E (trace w))
    /\ (forall e, instant d = Some e -> steady d ->
        (b = true <-> e - five_minutes < clock E (trace w))).
Proof.
  intros H Hz Hw. eexists. split; [apply (needs_refresh_aware E s w d z H Hz Hw) |].
  split; [apply Z.ltb_lt |].
  intros e He Hs. unfold instant in He. unfold steady in Hs.
  rewrite Hz in He, Hs. injection He as <-.
  rewrite Z.ltb_lt, Hs. lia.
Qed.

Lemma needs_refresh_strict_witness :
  let E := scripted 0 0 (fun _ => inl "down") (inl "down") in
  let s := logged_in (utc_time five_minutes) in
  needs_refresh E s (fresh_world s) = (Ok false, emit EvNow (fresh_world s)).
Proof.
  intros E s.
  destruct (needs_refresh_strict E s (fresh_world s)
              {| wall := five_minutes; fold := false; tz := Some utc |} utc)
    as (b & Hrun & _ & Hiff).
  - reflexivity.
  - reflexivity.
  - vm_compute. discriminate.
  - rewrite Hrun. destruct b; [| reflexivity].
    exfalso.
    assert (Hlt : five_minutes - five_minutes < clock E (trace (fresh_world s)))
      by (apply (Hiff five_minutes); reflexivity).
    vm_compute in Hlt. discriminate Hlt.
Defined.

(** C2 (as stated) fails at the boundary [e - margin = now]. *)
Lemma needs_refresh_boundary_counterexample :
  ~ (forall (E : env) (s : API) (w : world) (d : datetime) (e : Z),
       expire_time s = PTime d -> instant d = Some e ->
       (fst (needs_refresh E s w) = Ok true
        <-> e - five_minutes <= clock E (trace w))).
Proof.
  intros H.
  pose (E := scripted 0 0 (fun _ => inl "down") (inl "down")).
  pose (s := logged_in (utc_time five_minutes)).
  destruct (H E s (fresh_world s) _ five_minutes eq_refl eq_refl)
    as [_ Hstale].
  assert (Hb : fst (needs_refresh E s (fresh_world s)) = Ok false)
    by (vm_compute; reflexivity).
  rewrite Hb in Hstale.
  assert (Hle : five_minutes - five_minutes <= clock E (trace (fresh_world s)))
    by (vm_compute; discriminate).
  specialize (Hstale Hle). discriminate Hstale.
Qed.

(** Where the zone of the expiry falls back, the check is not a
    comparison of instants: two minutes after the repeated hour the
    reading five minutes earlier is taken an hour too early, and a
    credential that expires 32 minutes from now counts as stale. *)
Example needs_refresh_across_fall_back :
  let b := 36000000000 in
  let d := {| wall := b + 3600000000 + 120000000; fold := false;
              tz := Some (fall_back_zone b) |} in
  let t := b + 120000000 - 32 * 60000000 in
  let E := scripted t 0 (fun _ => inl "down") (inl "down") in
  let s := logged_in (PTime d) in
  instant d = Some (t + 32 * 60000000)
  /\ fst (needs_refresh E s (fresh_world s)) = Ok true.
Proof. vm_compute. split; reflexivity. Qed.

(** Where it springs forward, a credential that expired 28 minutes ago
    counts as fresh. *)
Example needs_refresh_across_spring_forward :
  let b := 36000000000 in
  let d := {| wall := b + 3600000000 + 120000000; fold := false;
              tz := Some (spring_forward_zone b) |} in
  let t := b - 3600000000 + 120000000 + 28 * 60000000 in
  let E := scripted t 0 (fun _ => inl "down") (inl "down") in
  let s := logged_in (PTime d) in
  instant d = Some (t - 28 * 60000000)
  /\ fst (needs_refresh E s (fresh_world s)) = Ok false.
Proof. vm_compute. split; reflexivity. Qed.

Lemma login_effects_after (E : env) (w0 w : world) :
  same_config (self w0) (self w) -> login_run (trace w0) (trace w) ->
  wp (login E) (refresh_ok w0) (refresh_failed w0) w.
Proof.
  intros Hc Hr. eapply wp_mono; [apply login_effects | |].
  - intros u w' [Hc' Hr']. split;
      eauto using same_config_trans, login_run_trans.
  - intros e w' (Hc' & Hr' & He). split; [| split];
      eauto using same_config_trans, login_run_plus_trans.
Qed.

(** The freshness check only ever performs login effects, and a failure
    comes after at least one of them. *)
Lemma refresh_effects (E : env) (w : world) :
  wp (_refresh_token_if_needed E) (refresh_ok w) (refresh_failed w) w.
Proof.
  unfold _refresh_token_if_needed, needs_refresh.
  wp_step. wp_step. wp_step.
  { split; [apply same_config_refl | apply login_run_refl]. }
  wp_step. destruct (expire_time (self w)); wp_run.
  all: try discriminate.
  all: try (apply login_effects_after;
            [apply same_config_refl | cbn; login_trace]).
  all: try (split; [apply same_config_refl | cbn; login_trace]).
  all: split; [apply same_config_refl |].
  all: split; [exists EvNow, (trace w); repeat split; apply login_run_refl |].
  all: apply explained_other; intros Hcls.
  all: repeat match goal with
       | H : minus_five_minutes _ = Raised _ |- _ =>
           unfold minus_five_minutes in H
       | H : now_gt _ _ = Raised _ |- _ => unfold now_gt in H
       | H : (if ?c then _ else _) = Raised _ |- _ => destruct c
       | H : match ?x with _ => _ end = Raised _ |- _ => destruct x
       | H : Ok _ = Raised _ |- _ => discriminate H
       | H : Raised _ = Raised _ |- _ => injection H as <-
       end.
  all: discriminate Hcls.
Qed.

Lemma wp_refresh (E : env) Q R (w : world) :
  (forall w', refresh_ok w tt w' -> Q tt w') ->
  (forall e w', refresh_failed w e w' -> R e w') ->
  wp (_refresh_token_if_needed E) Q R w.
Proof.
  intros HQ HR. eapply wp_mono; [apply refresh_effects | |].
  - intros [] w'. apply HQ.
  - apply HR.
Qed.

(** A successful [login] ends with the call of the federation service
    and stores the [Expiration] that call returned, as it is. *)
Lemma login_stores_issued_expiry (E : env) (w : world) :
  wp (login E) (fun _ w' => issued_by_run E w' (expire_time (self w')))
     (fun _ _ => True) w.
Proof.
  unfold login. wp_run; try exact I.
  all: cbn; unfold issued_by_run; cbn; eauto 10.
Qed.

(** The two ways the freshness check can return: the stored credential
    passed the comparison of line 126 and nothing but the clock was
    touched, or [login] ran and stored the expiry the federation service
    issued in this run. *)
Lemma refresh_cases (E : env) (w : world) :
  dev_mode (self w) = false ->
  wp (_refresh_token_if_needed E)
     (fun _ w' =>
        (exists d z, expire_time (self w) = PTime d
                     /\ tz d = Some z
                     /\ five_minutes <= wall d
                     /\ clock E (trace w)
                        <= wall d - five_minutes
                           - utcoffset z (wall d - five_minutes) false
                     /\ w' = emit EvNow w)
        \/ (issued_by_run E w' (expire_time (self w'))
            /\ trace w' <> EvNow :: trace w))
     (fun _ _ => True) w.
Proof.
  intros Hdev.
  unfold _refresh_token_if_needed, needs_refresh.
  wp_step. wp_step. rewrite Hdev. wp_step.
  destruct (expire_time (self w)) eqn:Hexp; wp_run.
  all: try exact I.
  all: try discriminate.
  all: try (eapply wp_mono; [apply login_stores_issued_expiry | |];
            cbv beta;
            [ intros u w' Hi; right; split; [exact Hi |];
              destruct Hi as (i & tk & rest & _ & _ & -> & _); discriminate
            | auto ]).
  left. unfold minus_five_minutes in Hlift.
  destruct (Z.ltb_spec (wall t - five_minutes) 0) as [Hlt | Hge];
    [discriminate Hlift |].
  injection Hlift as <-.
  unfold now_gt, instant in Hlift0. cbn [tz wall fold] in Hlift0.
  destruct (tz t) as [z |] eqn:Hz; [| discriminate Hlift0].
  injection Hlift0 as Hcmp. apply Z.ltb_ge in Hcmp.
  exists t, z. repeat split; try reflexivity; try lia. exact Hz.
Qed.

(** C1 (amended): with [dev_mode] off, a return without error leaves an
    aware expiry whose instant is at least the margin after the time of
    the call, provided that, when the run logged in, the [Expiration] the
    federation service issued in this run is that late ([login] stores it
    as it is, without comparing it with the clock), and that, when the
    stored credential was kept, its zone gives the reading five minutes
    before the expiry the offset it gives the expiry itself. *)
Theorem refresh_leaves_fresh_credential (E : env) (w w' : world) :
  dev_mode (self w) = false ->
  _refresh_token_if_needed E w = (Ok tt, w') ->
  (forall x, issued_by_run E w' x -> fresh_for (clock E (trace w)) x) ->
  (forall d, trace w' = EvNow :: trace w ->
             expire_time (self w) = PTime d -> steady d) ->
  fresh_for (clock E (trace w)) (expire_time (self w')).
Proof.
  intros Hdev Hrun Hissue Hsteady.
  destruct (wp_returns _ _ _ _ _ _ (refresh_cases E w Hdev) Hrun)
    as [(d & z & He & Hz & Hw & Hle & ->) | [Hi _]].
  - specialize (Hsteady d eq_refl He). unfold steady in Hsteady.
    rewrite Hz in Hsteady.
    exists d, (wall d - utcoffset z (wall d) (fold d)).
    split; [exact He |]. split; [unfold instant; now rewrite Hz |].
    rewrite <- Hsteady. lia.
  - apply Hissue, Hi.
Qed.

Lemma refresh_leaves_fresh_credential_witness :
  let E := renewing in
  let w0 := snd (login E (fresh_world (sample_api false))) in
  let w := {| self := self w0; trace := (repeat EvNow 10 ++ trace w0)%list |} in
  let w' := snd (_refresh_token_if_needed E w) in
  expire_time (self w) = utc_time (16 * minute)
  /\ clock E (trace w) = 17 * minute
  /\ fresh_for (clock E (trace w)) (expire_time (self w')).
Proof.
  intros E w0 w w'.
  split; [reflexivity |]. split; [reflexivity |].
  apply (refresh_leaves_fresh_credential E w w').
  - reflexivity.
  - vm_compute. reflexivity.
  - intros x (i & t & rest & answer & creds & Htr & Hd & Hcreds & Hx).
    assert (Hlen : length (trace w') = 24%nat) by (vm_compute; reflexivity).
    rewrite Htr in Hlen. cbn [length] in Hlen. injection Hlen as Hlen.
    unfold E in Hd. cbn [renewing get_credentials_for_identity] in Hd.
    rewrite Hlen in Hd. vm_compute in Hd. injection Hd as <-.
    vm_compute in Hcreds. injection Hcreds as <-.
    vm_compute in Hx. injection Hx as <-.
    eexists _, _. split; [reflexivity |]. split; [reflexivity |].
    vm_compute. discriminate.
  - intros d Htr.
    assert (Hlen : length (trace w') = 24%nat) by (vm_compute; reflexivity).
    rewrite Htr in Hlen. vm_compute in Hlen. discriminate Hlen.
Defined.

(** C1 (as stated) fails: the service issues credentials that are
    already expired, and the check returns without error. *)
Lemma refresh_leaves_fresh_credential_counterexample :
  ~ (forall (E : env) (w w' : world),
       dev_mode (self w) = false ->
       _refresh_token_if_needed E w = (Ok tt, w') ->
       fresh_for (clock E (trace w)) (expire_time (self w'))).
Proof.
  intros H.
  pose (E := scripted 1000 0 (login_answers 200) (credentials (utc_time 0))).
  pose (w := fresh_world (sample_api false)).
  destruct (H E w (snd (_refresh_token_if_needed E w)) eq_refl)
    as (d & e & Hd & He & Hle).
  - vm_compute. reflexivity.
  - vm_compute in Hd. injection Hd as <-.
    vm_compute in He. injection He as <-.
    vm_compute in Hle. apply Hle. reflexivity.
Qed.

(** The claim of C1 also fails without any login: where the zone of the
    stored expiry springs forward, the check keeps a credential that
    expired 28 minutes ago. *)
Example refresh_keeps_expired_credential :
  let b := 36000000000 in
  let d := {| wall := b + 3600000000 + 120000000; fold := false;
              tz := Some (spring_forward_zone b) |} in
  let t := b - 3600000000 + 120000000 + 28 * 60000000 in
  let E := scripted t 0 (fun _ => inl "down") (inl "down") in
  let w := fresh_world (logged_in (PTime d)) in
  _refresh_token_if_needed E w = (Ok tt, emit EvNow w)
  /\ instant d = Some (t - 28 * 60000000).
Proof. split; reflexivity. Qed.

(** ** Commands *)

Lemma command_skipped_in_dev_mode (E : env) (vin : string) (cmd : Command)
    (w : world) :
  dev_mode (self w) = true -> command E vin cmd w = (Ok tt, w).
Proof.
  intros Hdev. unfold command, bind, get_self. rewrite Hdev. reflexivity.
Qed.

(** C10: in dev mode [command] returns at once: no PIN check, no request,
    no effect at all, and the client object is as before. *)
Theorem command_dev_mode (E : env) (vin : string) (cmd : Command) (w : world) :
  dev_mode (self w) = true ->
  command E vin cmd w = (Ok tt, w).
Proof. apply command_skipped_in_dev_mode. Qed.

Lemma command_dev_mode_witness :
  let E := scripted 0 0 (fun _ => inl "down") (inl "down") in
  let w := fresh_world (sample_api true) in
  command E "VIN1" sample_command w = (Ok tt, w).
Proof.
  intros E w. apply (command_dev_mode E "VIN1" sample_command w). reflexivity.
Defined.
Ltac refuse HR :=
  apply HR;
  [ discriminate
  | first
      [ match goal with
        | H : py_get _ _ _ = Raised _ |- _ =>
            cbn in H; injection H as <-; discriminate
        end
      | match goal with
        | Hk : _ \/ _ |- _ => destruct Hk; subst; discriminate
        end ] ].

Ltac not_a_dict HR :=
  wp_run;
  first
    [ discriminate
    | match goal with H : py_get _ _ _ = Ok _ |- _ => discriminate H end
    | match goal with H : subscript _ _ = Ok _ |- _ => discriminate H end
    | refuse HR ].

Lemma check_command_response_dict (E : env) (d : gmap string pyval) (w : world) :
  check_command_response E (PDict d) w =
    (match d !! "responseStatus" with
     | Some (PStr s) =>
         if String.eqb s "pending" then Ok tt else Raised (rejection E d)
     | _ => Raised (rejection E d)
     end, w).
Proof.
  unfold check_command_response, bind, lift, ret, raise, rejection,
    ne_str, is_str.
  cbn [py_in subscript py_get].
  destruct (d !! "responseStatus") as [st |]; cbn; [| reflexivity].
  destruct st; cbn; try reflexivity.
  destruct (String.eqb s "pending"); reflexivity.
Qed.

Lemma wp_check_command_response (E : env) (r : pyval) Q R (w : world) :
  (forall d, r = PDict d -> d !! "responseStatus" = Some (PStr "pending") ->
     Q tt w) ->
  (forall e,
     (forall d, r = PDict d ->
        d !! "responseStatus" <> Some (PStr "pending") /\ e = rejection E d) ->
     (class_of e = ClsException ->
        exists x, e = Exception_ ("command queuing failed: " +:+ x)) ->
     R e w) ->
  wp (check_command_response E r) Q R w.
Proof.
  intros HQ HR.
  destruct r as [| b | z | s | t | l | d].
  1-3, 5: unfold check_command_response; cbn [py_in];
    apply wp_bind, wp_lift; apply HR; [discriminate | discriminate].
  - unfold check_command_response; cbn [py_in]. not_a_dict HR.
  - unfold check_command_response; cbn [py_in]. not_a_dict HR.
  - unfold wp. rewrite check_command_response_dict.
    assert (Hrej : d !! "responseStatus" <> Some (PStr "pending") ->
                   R (rejection E d) w).
    { intros Hne. apply HR; [| intros _; eexists; reflexivity].
      intros d0 [= <-]. split; [exact Hne | reflexivity]. }
    destruct (d !! "responseStatus") as [st |] eqn:Hst;
      [| apply Hrej; discriminate].
    destruct st as [| b | z | s | t | l | d']; try (apply Hrej; discriminate).
    destruct (String.eqb_spec s "pending") as [-> | Hne].
    + exact (HQ d eq_refl Hst).
    + apply Hrej. congruence.
Qed.

Lemma py_in_raises key v e : py_in key v = Raised e -> e = TypeError.
Proof. destruct v; cbn; congruence. Qed.

Lemma login_run_plus_head tr0 req rest :
  login_run_plus tr0 (EvHttp req :: rest) ->
  is_login_endpoint (req_endpoint req) = true.
Proof. intros (ev & rest' & [= <- <-] & Hev & _). exact Hev. Qed.

Ltac wp_command_step :=
  lazymatch goal with
  | |- wp (check_command_response _ _) _ _ _ =>
      apply wp_check_command_response;
      [intros ?d ?Hd ?Hp | intros ?e ?Hrej ?Hexp]
  | |- _ => wp_step
  end.

(** Where [command] can end, with [dev_mode] off. *)
Lemma command_outcomes (E : env) (vin : string) (cmd : Command) (w : world) :
  dev_mode (self w) = false ->
  wp (command E vin cmd)
     (fun _ w' => accepted E w')
     (fun e w' => explained e (trace w') /\ refused E e w')
     w.
Proof.
  intros Hdev. unfold command.
  wp_step. wp_step. rewrite Hdev. wp_step. apply wp_refresh.
  - intros w1 [Hc Hr]. unfold signed_post. repeat wp_command_step.
    all: cbn [trace emit self] in *.
    2: { subst. unfold accepted. cbn [trace]. eauto 10. }
    all: split.
    all: try (intros req rest resp' d' [= <- <-] Hep Ht Hb;
              first [ discriminate Hep
                    | congruence
                    | apply Hrej; congruence ]).
    all: try (intros _; do 2 eexists; split; reflexivity).
    all: try (eapply explained_key; eassumption).
    all: try (apply explained_other; discriminate).
    + intros Hcls. destruct (Hexp Hcls) as [x1 ->].
      do 2 eexists. split; reflexivity.
    + match goal with
      | H : py_in _ _ = Raised _ |- _ => apply py_in_raises in H as ->
      end.
      apply explained_other. discriminate.
  - intros e w1 (Hc & Hplus & Hexp). split; [exact Hexp |].
    intros req rest resp d Htr Hep _ _. rewrite Htr in Hplus.
    apply login_run_plus_head in Hplus. rewrite Hep in Hplus. discriminate.
Qed.

(** C6: when [command] ends on a request to the command endpoint that was
    answered by a document [d], it succeeds exactly when [d] holds
    [responseStatus] "pending", and otherwise raises the rejection that
    carries [debugMsg], or "unknown error" when [d] has none. *)
Theorem command_verdict (E : env) (vin : string) (cmd : Command)
    (w w' : world) (res : result unit) (req : request) (rest : list event)
    (resp : response) (d : gmap string pyval) :
  dev_mode (self w) = false ->
  command E vin cmd w = (res, w') ->
  trace w' = EvHttp req :: rest ->
  req_endpoint req = EpCommand ->
  transport E rest req = inr resp ->
  body resp = Some (PDict d) ->
  (res = Ok tt <-> d !! "responseStatus" = Some (PStr "pending"))
  /\ (res <> Ok tt ->
      res = Raised (Exception_
              ("command queuing failed: "
               +:+ py_str E (default (PStr "unknown error") (d !! "debugMsg"))))).
Proof.
  intros Hdev Hrun Htr Hep Ht Hb.
  pose proof (command_outcomes E vin cmd w Hdev) as Hwp.
  unfold wp in Hwp. rewrite Hrun in Hwp.
  destruct res as [[] | e].
  - destruct Hwp as (req' & rest' & resp' & d' & Htr' & _ & Ht' & Hb' & Hp).
    rewrite Htr in Htr'. injection Htr' as <- <-.
    assert (d' = d) as -> by congruence.
    split; [tauto | congruence].
  - destruct Hwp as [_ Href].
    destruct (Href req rest resp d Htr Hep Ht Hb) as [Hne ->].
    split; [split; [discriminate | contradiction] | reflexivity].
Qed.

(** [command] cannot succeed without such an answer. *)
Lemma command_success_needs_pending (E : env) (vin : string) (cmd : Command)
    (w w' : world) :
  dev_mode (self w) = false ->
  command E vin cmd w = (Ok tt, w') ->
  accepted E w'.
Proof.
  intros Hdev Hrun.
  exact (wp_returns _ _ _ _ _ _ (command_outcomes E vin cmd w Hdev) Hrun).
Qed.

(** One signed POST: a random draw, then the request, then the body. *)
Lemma signed_post_run (E : env) (ep : endpoint) (u key : string)
    (data : pyval) (w : world) :
  exists req,
    req_endpoint req = ep
    /\ req_headers req !! "clientrequestid"
       = Some (correlation_id (urandom E (trace w)))
    /\ signed_post E ep u key data w
       = (read_outcome (transport E (EvUuid :: trace w) req) Ok,
          emit (EvHttp req) (emit EvUuid w)).
Proof.
  unfold signed_post, _default_aws_headers, uuid4, sess_request, json,
    bind, get_self, ret, raise, read_outcome.
  cbn [trace emit self].
  match goal with
  | |- context [transport E (EvUuid :: trace w) ?r] =>
      lazymatch r with
      | Build_request _ _ _ _ _ _ _ => exists r
      end
  end.
  split; [reflexivity |]. split.
  { cbn [req_headers]. rewrite lookup_dict_or.
    generalize (correlation_id (urandom E (trace w))). intros c. reflexivity. }
  destruct (transport E (EvUuid :: trace w) _) as [tag | resp]; [reflexivity |].
  destruct (body resp); reflexivity.
Qed.

(** C5: once the freshness check has passed, [command] sends one PIN
    request; if its answer is a document without "token", [command]
    raises "authentication failed" right there, and the call has sent
    nothing to the command endpoint. *)
Theorem command_stops_without_token (E : env) (vin : string) (cmd : Command)
    (w w1 : world) :
  dev_mode (self w) = false ->
  _refresh_token_if_needed E w = (Ok tt, w1) ->
  exists req,
    req_endpoint req = EpPinAuth
    /\ forall sc d,
         transport E (EvUuid :: trace w1) req
           = inr {| status_code := sc; body := Some (PDict d) |} ->
         d !! "token" = None ->
         command E vin cmd w
           = (Raised (Exception_ "authentication failed"),
              emit (EvHttp req) (emit EvUuid w1))
         /\ requests_to EpCommand (EvHttp req :: EvUuid :: trace w1)
            = requests_to EpCommand (trace w).
Proof.
  intros Hdev Hrun.
  destruct (signed_post_run E EpPinAuth
    (auth_url (brand (self w1)) +:+ "/v1/accounts/" +:+ py_str E (uid (self w1))
       +:+ "/ignite/pin/authenticate")
    (auth_api_key (brand (self w1)))
    (PDict {[ "pin" := PStr (b64encode (pin (self w))) ]}) w1)
    as (req & Hep & _ & Hpost).
  exists req. split; [exact Hep |].
  intros sc d Ht Hd. split.
  - unfold command, bind at 1 2 3 4, get_self.
    rewrite Hdev, Hrun. cbv beta iota. rewrite Hpost, Ht.
    unfold read_outcome, bind, lift, raise. cbn [body py_in].
    rewrite Hd. reflexivity.
  - cbn [requests_to]. rewrite Hep. cbn [endpoint_eqb Nat.add].
    apply login_run_requests_to; [reflexivity |].
    pose proof (wp_returns _ _ _ _ _ _ (refresh_effects E w) Hrun) as [_ Hr].
    exact Hr.
Qed.

(** The same holds for any answer in which "token" is not found, whatever
    its shape: the run ends on the PIN request. *)
Lemma command_ends_at_pin_without_token (E : env) (vin : string)
    (cmd : Command) (w w1 : world) :
  dev_mode (self w) = false ->
  _refresh_token_if_needed E w = (Ok tt, w1) ->
  exists req,
    req_endpoint req = EpPinAuth
    /\ forall resp answer_doc,
         transport E (EvUuid :: trace w1) req = inr resp ->
         body resp = Some answer_doc ->
         py_in "token" answer_doc <> Ok true ->
         exists e,
           command E vin cmd w
             = (Raised e, emit (EvHttp req) (emit EvUuid w1)).
Proof.
  intros Hdev Hrun.
  destruct (signed_post_run E EpPinAuth
    (auth_url (brand (self w1)) +:+ "/v1/accounts/" +:+ py_str E (uid (self w1))
       +:+ "/ignite/pin/authenticate")
    (auth_api_key (brand (self w1)))
    (PDict {[ "pin" := PStr (b64encode (pin (self w))) ]}) w1)
    as (req & Hep & _ & Hpost).
  exists req. split; [exact Hep |].
  intros resp answer_doc Ht Hb Hin.
  unfold command, bind at 1 2 3 4, get_self.
  rewrite Hdev, Hrun. cbv beta iota. rewrite Hpost, Ht.
  unfold read_outcome, bind, lift, raise. rewrite Hb.
  destruct (py_in "token" answer_doc) as [[|] | e];
    [contradiction | eexists; reflexivity | eexists; reflexivity].
Qed.

(** ** Read operations *)

(** One signed GET: a random draw, then the request, then the body. *)
Lemma signed_get_run (E : env) (ep : endpoint) (path : API -> string)
    (params : gmap string pyval) (w : world) :
  exists req,
    req_endpoint req = ep
    /\ req_headers req !! "clientrequestid"
       = Some (correlation_id (urandom E (trace w)))
    /\ signed_get E ep path params w
       = (read_outcome (transport E (EvUuid :: trace w) req) Ok,
          emit (EvHttp req) (emit EvUuid w)).
Proof.
  unfold signed_get, _default_aws_headers, uuid4, sess_request, json,
    bind, get_self, ret, raise, read_outcome.
  cbn [trace emit self].
  match goal with
  | |- context [transport E (EvUuid :: trace w) ?r] =>
      lazymatch r with
      | Build_request _ _ _ _ _ _ _ => exists r
      end
  end.
  split; [reflexivity |]. split.
  { cbn [req_headers]. rewrite lookup_dict_or.
    generalize (correlation_id (urandom E (trace w))). intros c. reflexivity. }
  destruct (transport E (EvUuid :: trace w) _) as [tag | resp]; [reflexivity |].
  destruct (body resp); reflexivity.
Qed.

Ltac read_after_refresh Hdev Hrun :=
  unfold bind at 1, get_self; cbv beta iota; rewrite Hdev;
  unfold bind at 1; rewrite Hrun; cbv beta iota.

(** C7 (amended): once the freshness check has passed, a read operation
    sends one request and its outcome is read off the answer's body
    alone: a transport failure or a body that is not JSON is raised,
    [list_vehicles] returns the "vehicles" entry of the document and
    raises when there is none, the other three return the document.  The
    HTTP status of the answer plays no part. *)
Theorem read_operations_outcome (E : env) (vin : string) (w w1 : world) :
  dev_mode (self w) = false ->
  _refresh_token_if_needed E w = (Ok tt, w1) ->
  (exists req,
     req_endpoint req = EpListVehicles
     /\ list_vehicles E w
        = (read_outcome (transport E (EvUuid :: trace w1) req)
             (fun d => subscript d "vehicles"),
           emit (EvHttp req) (emit EvUuid w1)))
  /\ (exists req,
        req_endpoint req = EpVehicle
        /\ get_vehicle E vin w
           = (read_outcome (transport E (EvUuid :: trace w1) req) Ok,
              emit (EvHttp req) (emit EvUuid w1)))
  /\ (exists req,
        req_endpoint req = EpVehicleStatus
        /\ get_vehicle_status E vin w
           = (read_outcome (transport E (EvUuid :: trace w1) req) Ok,
              emit (EvHttp req) (emit EvUuid w1)))
  /\ (exists req,
        req_endpoint req = EpVehicleLocation
        /\ get_vehicle_location E vin w
           = (read_outcome (transport E (EvUuid :: trace w1) req) Ok,
              emit (EvHttp req) (emit EvUuid w1))).
Proof.
  intros Hdev Hrun. repeat split.
  - destruct (signed_get_run E EpListVehicles
      (fun s => "/v4/accounts/" +:+ py_str E (uid s) +:+ "/vehicles")
      {[ "stage" := PStr "ALL" ]} w1) as (req & Hep & _ & Hget).
    exists req. split; [exact Hep |].
    unfold list_vehicles. read_after_refresh Hdev Hrun.
    unfold bind. rewrite Hget. unfold read_outcome, lift.
    destruct (transport E (EvUuid :: trace w1) req) as [tag | resp];
      [reflexivity |].
    destruct (body resp); reflexivity.
  - destruct (signed_get_run E EpVehicle
      (fun s => "/v2/accounts/" +:+ py_str E (uid s) +:+ "/vehicles/" +:+ vin
                +:+ "/status") ∅ w1) as (req & Hep & _ & Hget).
    exists req. split; [exact Hep |].
    unfold get_vehicle. read_after_refresh Hdev Hrun. exact Hget.
  - destruct (signed_get_run E EpVehicleStatus
      (fun s => "/v1/accounts/" +:+ py_str E (uid s) +:+ "/vehicles/" +:+ vin
                +:+ "/remote/status") ∅ w1) as (req & Hep & _ & Hget).
    exists req. split; [exact Hep |].
    unfold get_vehicle_status. read_after_refresh Hdev Hrun. exact Hget.
  - destruct (signed_get_run E EpVehicleLocation
      (fun s => "/v1/accounts/" +:+ py_str E (uid s) +:+ "/vehicles/" +:+ vin
                +:+ "/location/lastknown") ∅ w1) as (req & Hep & _ & Hget).
    exists req. split; [exact Hep |].
    unfold get_vehicle_location. read_after_refresh Hdev Hrun. exact Hget.
Qed.

(** C7 (as stated) fails: the list endpoint answers with status 500 and a
    document, and [list_vehicles] returns its "vehicles" entry. *)
Lemma read_operations_counterexample :
  ~ (forall (E : env) (w w' : world) (res : result pyval) (req : request)
            (rest : list event) (resp : response),
       dev_mode (self w) = false ->
       list_vehicles E w = (res, w') ->
       trace w' = EvHttp req :: rest ->
       req_endpoint req = EpListVehicles ->
       transport E rest req = inr resp ->
       ~ (200 <= status_code resp < 300) ->
       exists e, res = Raised e).
Proof.
  intros H.
  pose (E := scripted 0 7
               (answer EpListVehicles (reply 500 (doc [("vehicles", PList [])]))
                  (login_answers 200))
               (credentials (utc_time 0))).
  pose (w := fresh_world (logged_in (utc_time five_minutes))).
  edestruct (H E w (snd (list_vehicles E w)) (Ok (PList []))) as [e He].
  - reflexivity.
  - vm_compute. reflexivity.
  - vm_compute. reflexivity.
  - reflexivity.
  - vm_compute. reflexivity.
  - cbn. lia.
  - discriminate He.
Qed.

(** ** Failure kinds *)

Lemma step_of_range (e : exn) (ep : endpoint) :
  step_of e = Some ep -> ep <> EpToken.
Proof.
  destruct e as [msg | | | | | | | | |]; cbn; try discriminate.
  repeat match goal with
         | |- context [if ?b then _ else _] => destruct b
         end; congruence.
Qed.

(** An answer with a [statusCode] other than 200 at one of the three
    checked hops ends [login] with the explicit failure of that hop. *)
Lemma login_refusal_is_explicit (E : env) (w : world) :
  wp (login E) (fun _ _ => True)
     (fun e w' =>
        forall req rest resp d sc,
          trace w' = EvHttp req :: rest ->
          is_status_checked (req_endpoint req) = true ->
          transport E rest req = inr resp ->
          body resp = Some (PDict d) ->
          d !! "statusCode" = Some sc ->
          ne_int sc 200 = true ->
          class_of e = ClsException /\ step_of e = Some (req_endpoint req))
     w.
Proof.
  unfold login. wp_run; try exact I.
  all: cbn [trace emit self] in *.
  all: intros req rest resp' d sc [= <- <-] Hchk Ht Hb Hsc Hne.
  all: try discriminate Hchk.
  all: try (split; reflexivity).
  all: repeat match goal with
         | H1 : transport _ ?t ?r = inr ?a, H2 : transport _ ?t ?r = inr ?b |- _ =>
             assert (a = b) by congruence; subst a; clear H2
         | H1 : body ?r = Some ?a, H2 : body ?r = Some (PDict ?b) |- _ =>
             assert (a = PDict b) by congruence; subst a; clear H1
         end.
  all: try congruence.
  all: repeat match goal with
         | H : subscript (PDict _) _ = _ |- _ => cbn in H
         end.
  all: try (rewrite Hsc in *; congruence).
Qed.

(** C4 (amended): the failures that [login] and [command] raise
    themselves all have the one class [Exception]; what tells them apart
    is the message, which names the request whose answer was refused
    (bootstrap, primary login, JWT exchange, PIN authentication, command).
    No message belongs to the token endpoint, and none is raised after
    the federation call. *)
Theorem explicit_failures_by_message (E : env) (m : M unit) (w w' : world)
    (e : exn) :
  m = login E \/ (exists vin cmd, m = command E vin cmd) ->
  m w = (Raised e, w') ->
  class_of e = ClsException ->
  exists req rest,
    trace w' = EvHttp req :: rest
    /\ step_of e = Some (req_endpoint req)
    /\ req_endpoint req <> EpToken.
Proof.
  intros Hm Hrun Hcls.
  assert (Hexp : explained e (trace w')).
  { destruct Hm as [-> | (vin & cmd & ->)].
    - pose proof (wp_raises _ _ _ _ _ _ (login_effects E w) Hrun)
        as (_ & _ & Hexp).
      exact Hexp.
    - destruct (dev_mode (self w)) eqn:Hdev.
      + rewrite (command_skipped_in_dev_mode E vin cmd w Hdev) in Hrun. discriminate Hrun.
      + pose proof (wp_raises _ _ _ _ _ _ (command_outcomes E vin cmd w Hdev) Hrun)
          as [Hexp _].
        exact Hexp. }
  destruct (Hexp Hcls) as (req & rest & Htr & Hstep).
  exists req, rest. eauto using step_of_range.
Qed.

Lemma explicit_failures_by_message_witness :
  let E := scripted 0 0
             (answer EpBootstrap (reply 200 (doc [("statusCode", PInt 403)]))
                (login_answers 200))
             (inl "down") in
  let w := fresh_world (sample_api false) in
  exists req rest,
    trace (snd (login E w)) = EvHttp req :: rest
    /\ step_of (Exception_ "bootstrap failed") = Some (req_endpoint req)
    /\ req_endpoint req <> EpToken.
Proof.
  intros E w.
  apply (explicit_failures_by_message E (login E) w (snd (login E w))
           (Exception_ "bootstrap failed")).
  - left. reflexivity.
  - vm_compute. reflexivity.
  - reflexivity.
Defined.

(** C4 (as stated) fails: a refused bootstrap and a refused primary login
    are different steps, and both raise the class [Exception]. *)
Lemma error_kinds_counterexample :
  ~ (forall (E1 E2 : env) (w1 w2 w1' w2' : world) (e1 e2 : exn),
       login E1 w1 = (Raised e1, w1') ->
       login E2 w2 = (Raised e2, w2') ->
       last_request (trace w1') <> last_request (trace w2') ->
       class_of e1 <> class_of e2).
Proof.
  intros H.
  pose (refusal := reply 200 (doc [("statusCode", PInt 403)])).
  pose (E1 := scripted 0 0 (answer EpBootstrap refusal (login_answers 200))
                (inl "down")).
  pose (E2 := scripted 0 0 (answer EpLogin refusal (login_answers 200))
                (inl "down")).
  pose (w := fresh_world (sample_api false)).
  apply (H E1 E2 w w (snd (login E1 w)) (snd (login E2 w))
           (Exception_ "bootstrap failed") (Exception_ "login failed")).
  - vm_compute. reflexivity.
  - vm_compute. reflexivity.
  - vm_compute. discriminate.
  - reflexivity.
Qed.

(** ** Sample runs *)

Lemma command_stops_without_token_witness :
  let E := command_env (doc []) (doc [("responseStatus", PStr "pending")]) in
  exists req,
    req_endpoint req = EpPinAuth
    /\ forall sc d,
         transport E (EvUuid :: trace (emit EvNow command_world)) req
           = inr {| status_code := sc; body := Some (PDict d) |} ->
         d !! "token" = None ->
         command E "VIN1" sample_command command_world
           = (Raised (Exception_ "authentication failed"),
              emit (EvHttp req) (emit EvUuid (emit EvNow command_world)))
         /\ requests_to EpCommand
              (EvHttp req :: EvUuid :: trace (emit EvNow command_world))
            = requests_to EpCommand (trace command_world).
Proof.
  intros E.
  apply (command_stops_without_token E "VIN1" sample_command command_world
           (emit EvNow command_world)).
  - reflexivity.
  - vm_compute. reflexivity.
Defined.

Lemma command_verdict_witness :
  let E := command_env (doc [("token", PStr "tk")])
             (doc [("responseStatus", PStr "failed");
                   ("debugMsg", PStr "vehicle offline")]) in
  let d : gmap string pyval :=
    list_to_map [("responseStatus", PStr "failed");
                 ("debugMsg", PStr "vehicle offline")] in
  let res := fst (command E "VIN1" sample_command command_world) in
  (res = Ok tt <-> d !! "responseStatus" = Some (PStr "pending"))
  /\ (res <> Ok tt ->
      res = Raised (Exception_
              ("command queuing failed: "
               +:+ py_str E (default (PStr "unknown error") (d !! "debugMsg"))))).
Proof.
  intros E d res.
  eapply (command_verdict E "VIN1" sample_command command_world
            (snd (command E "VIN1" sample_command command_world)) res).
  - reflexivity.
  - vm_compute. reflexivity.
  - vm_compute. reflexivity.
  - reflexivity.
  - vm_compute. reflexivity.
  - reflexivity.
Defined.

Lemma read_operations_outcome_witness :
  let E := scripted 0 7
             (answer EpListVehicles (reply 500 (doc [("vehicles", PList [])]))
                (login_answers 200))
             (inl "down") in
  let w1 := emit EvNow command_world in
  exists req,
    req_endpoint req = EpListVehicles
    /\ list_vehicles E command_world
       = (read_outcome (transport E (EvUuid :: trace w1) req)
            (fun d => subscript d "vehicles"),
          emit (EvHttp req) (emit EvUuid w1)).
Proof.
  intros E w1.
  apply (read_operations_outcome E "VIN1" command_world w1).
  - reflexivity.
  - vm_compute. reflexivity.
Defined.

(** The scenarios of the command endpoint. *)
Example command_pending :
  fst (command (command_env (doc [("token", PStr "tk")])
                  (doc [("responseStatus", PStr "pending")]))
         "VIN1" sample_command command_world)
  = Ok tt.
Proof. vm_compute. reflexivity. Qed.

Example command_vehicle_offline :
  fst (command (command_env (doc [("token", PStr "tk")])
                  (doc [("responseStatus", PStr "failed");
                        ("debugMsg", PStr "vehicle offline")]))
         "VIN1" sample_command command_world)
  = Raised (Exception_ "command queuing failed: vehicle offline").
Proof. vm_compute. reflexivity. Qed.

Example command_unknown_error :
  fst (command (command_env (doc [("token", PStr "tk")]) (doc []))
         "VIN1" sample_command command_world)
  = Raised (Exception_ "command queuing failed: unknown error").
Proof. vm_compute. reflexivity. Qed.

Example command_without_token :
  let run := command (command_env (doc []) (doc [("responseStatus", PStr "pending")]))
               "VIN1" sample_command command_world in
  fst run = Raised (Exception_ "authentication failed")
  /\ requests_to EpCommand (trace (snd run)) = 0%nat
  /\ requests_to EpPinAuth (trace (snd run)) = 1%nat.
Proof. vm_compute. repeat split. Qed.

Example list_vehicles_without_field :
  fst (list_vehicles
         (scripted 0 7 (answer EpListVehicles (reply 200 (doc [])) (login_answers 200))
            (inl "down"))
         command_world)
  = Raised (KeyError "vehicles").
Proof. vm_compute. reflexivity. Qed.

Example get_vehicle_any_status :
  fst (get_vehicle
         (scripted 0 7
            (answer EpVehicle (reply 403 (doc [("message", PStr "Forbidden")]))
               (login_answers 200))
            (inl "down"))
         "VIN1" command_world)
  = Ok (doc [("message", PStr "Forbidden")]).
Proof. vm_compute. reflexivity. Qed.

(** * Further properties *)

(** ** Parameters and correlation ids *)

Lemma dom_dict_or {V : Type} (a b : gmap string V) :
  dom (dict_or a b) = dom a ∪ dom b.
Proof.
  apply set_eq. intros k.
  rewrite elem_of_union, !elem_of_dom, lookup_dict_or.
  destruct (b !! k) as [v |].
  - split; [intros _; right; exists v; reflexivity | intros _; exists v; reflexivity].
  - split; [intros H; left; exact H |].
    intros [H | [v Hv]]; [exact H | discriminate Hv].
Qed.

(** X1: the merged parameters hold every key of [params] and the seven
    default keys, and nothing else. *)
Theorem with_default_params_keys (s : API) (params : gmap string pyval) :
  dom (_with_default_params s params) =
    dom params ∪ ({[ "targetEnv"; "loginMode"; "sdk"; "authMode"; "sdkBuild";
                     "format"; "APIKey" ]} : gset string).
Proof.
  unfold _with_default_params.
  rewrite dom_dict_or, dom_default_params. reflexivity.
Qed.

(** X2: merging the defaults a second time changes nothing. *)
Theorem with_default_params_idempotent (s : API) (params : gmap string pyval) :
  _with_default_params s (_with_default_params s params)
  = _with_default_params s params.
Proof.
  apply map_eq. intros k. unfold _with_default_params.
  rewrite !lookup_dict_or.
  destruct (default_params (brand s) !! k); reflexivity.
Qed.

Lemma uuid4_version_bits (rnd : Z) : (uuid4_int rnd / 2 ^ 76) mod 16 = 4.
Proof.
  rewrite <- Z.shiftr_div_pow2 by lia.
  change 16 with (2 ^ 4). rewrite <- Z.land_ones by lia.
  apply Z.bits_inj'. intros n Hn.
  rewrite Z.land_spec, Z.shiftr_spec by lia.
  unfold uuid4_int. cbv zeta.
  rewrite Z.lor_spec, Z.land_spec, Z.lnot_spec by lia.
  rewrite !Z.shiftl_spec by lia.
  replace (n + 76 - 76) with n by lia.
  replace (n + 76 - 64) with (n + 12) by lia.
  destruct (Z.ltb_spec n 4) as [Hlt | Hge].
  - rewrite Z.ones_spec_low by lia.
    assert (Hcases : n = 0 \/ n = 1 \/ n = 2 \/ n = 3) by lia.
    destruct Hcases as [-> | [-> | [-> | ->]]]; cbn;
      rewrite ?andb_false_r, ?andb_true_r; reflexivity.
  - rewrite Z.ones_spec_high by lia. rewrite andb_false_r.
    symmetry. apply Z.bits_above_log2; [lia |]. cbn. lia.
Qed.

(** X3: the thirteenth character of every correlation id is the UUID
    version digit 4, whatever was drawn. *)
Theorem correlation_id_version_digit (rnd : Z) :
  String.get 12 (correlation_id rnd) = Some "4"%char.
Proof.
  unfold correlation_id, uuid_hex.
  rewrite get_take_str by lia. rewrite get_upper, get_hex_of by lia.
  change (16 ^ Z.of_nat (32 - 1 - 12)) with (2 ^ 76).
  rewrite uuid4_version_bits. reflexivity.
Qed.

(** ** The login chain, step by step *)

Lemma wp_eqn {A : Type} (m : M A) Q R w :
  (forall a w1, m w = (Ok a, w1) -> Q a w1) ->
  (forall e w1, m w = (Raised e, w1) -> R e w1) ->
  wp m Q R w.
Proof.
  intros HQ HR. unfold wp. destruct (m w) as [[a | e] w1]; auto.
Qed.

Ltac chain_prefix k :=
  exists k; split; [lia |]; split; [reflexivity |];
  first [ let Hzero := fresh "Hzero" in intros Hzero; discriminate Hzero
        | intros _; split;
          [first [assumption | reflexivity] | eexists; reflexivity] ].

Lemma login_order_wp (E : env) (w : world) :
  wp (login E)
     (fun _ w' =>
        endpoints_of (trace w')
        = (rev login_chain ++ endpoints_of (trace w))%list)
     (fun e w' =>
        exists k : nat,
          (k <= 4)%nat
          /\ endpoints_of (trace w')
             = (rev (take k login_chain) ++ endpoints_of (trace w))%list
          /\ (k = 0%nat ->
              cognito_client (self w) = None
              /\ exists tag, e = BotoCoreError tag))
     w.
Proof.
  unfold login. wp_run.
  all: cbn [trace emit self endpoints_of req_endpoint].
  all: first [ reflexivity | chain_prefix 0%nat | chain_prefix 1%nat
             | chain_prefix 2%nat | chain_prefix 3%nat | chain_prefix 4%nat ].
Qed.

(** X4: [login] sends each hop of the chain only after the ones before
    it, never sends a hop twice, and has sent all four when it returns;
    it sends none of them only when it had no federation client and
    building one failed. *)
Theorem login_requests_in_order (E : env) (w : world) :
  exists k : nat,
    (k <= 4)%nat
    /\ endpoints_of (trace (snd (login E w)))
       = (rev (take k login_chain) ++ endpoints_of (trace w))%list
    /\ (fst (login E w) = Ok tt -> k = 4%nat)
    /\ (k = 0%nat ->
        cognito_client (self w) = None
        /\ exists tag, fst (login E w) = Raised (BotoCoreError tag)).
Proof.
  pose proof (login_order_wp E w) as Hwp. unfold wp in Hwp.
  destruct (login E w) as [[[] | e] w']; cbn [fst snd].
  - exists 4%nat. split; [lia |]. split; [exact Hwp |].
    split; [reflexivity | discriminate].
  - destruct Hwp as (k & Hk & Heq & Hzero). exists k.
    split; [exact Hk |]. split; [exact Heq |]. split; [discriminate |].
    intros H0. destruct (Hzero H0) as (Hnone & tag & ->).
    split; [exact Hnone | exists tag; reflexivity].
Qed.

Example login_sends_nothing_without_client :
  let E := {| clock := fun _ => 0; urandom := fun _ => 0;
              transport := fun _ r => login_answers 200 (req_endpoint r);
              get_credentials_for_identity := fun _ _ _ => credentials (utc_time 0);
              boto3_client := fun _ _ _ => Some "InvalidRegionError";
              fixture := fun _ => None;
              py_repr := fun _ => "<object>" |} in
  let w := fresh_world (sample_api false) in
  login E w
  = (Raised (BotoCoreError "InvalidRegionError"),
     emit (EvClient "cognito-identity" "eu-west-1") w).
Proof. reflexivity. Qed.

Ltac login_requests :=
  first
    [ apply run_of_refl
    | apply run_of_step;
      [ first
          [ exact I
          | cbn [login_request req_endpoint req_auth req_params req_json
                 is_login_endpoint];
            split; [reflexivity |]; split; [reflexivity |];
            split; [ first [ intros Hne; exfalso; apply Hne; reflexivity
                           | intros _; unfold _with_default_params;
                             rewrite ?lookup_dict_or; reflexivity ]
                   | first [ intros Hne; exfalso; apply Hne; reflexivity
                           | intros _; reflexivity ] ] ]
      | login_requests ] ].

Lemma login_requests_wp (E : env) (w : world) :
  wp (login E)
     (fun _ w' => run_of login_request (trace w) (trace w'))
     (fun _ w' => run_of login_request (trace w) (trace w'))
     w.
Proof.
  unfold login. wp_run.
  all: cbn [trace emit self].
  all: login_requests.
Qed.

(** X5: whatever its outcome, [login] sends only unsigned requests to
    the four hops of the chain, puts the password into the primary login
    alone, and sends a JSON body to the token endpoint alone. *)
Theorem login_requests_unsigned (E : env) (w : world) :
  run_of login_request (trace w) (trace (snd (login E w))).
Proof.
  pose proof (login_requests_wp E w) as Hwp. unfold wp in Hwp.
  destruct (login E w) as [[[] | e] w']; exact Hwp.
Qed.

Lemma login_cognito_client_wp (E : env) (w : world) :
  wp (login E)
     (fun _ w' =>
        match cognito_client (self w) with
        | Some c => cognito_client (self w') = Some c
        | None =>
            boto3_client E (trace w) "cognito-identity"
              (region (brand (self w))) = None
            /\ cognito_client (self w')
               = Some ("cognito-identity", region (brand (self w)))
        end)
     (fun e w' =>
        match cognito_client (self w) with
        | Some c => cognito_client (self w') = Some c
        | None =>
            (boto3_client E (trace w) "cognito-identity"
               (region (brand (self w))) = None
             /\ cognito_client (self w')
                = Some ("cognito-identity", region (brand (self w))))
            \/ (exists tag,
                  boto3_client E (trace w) "cognito-identity"
                    (region (brand (self w))) = Some tag
                  /\ e = BotoCoreError tag
                  /\ w' = emit (EvClient "cognito-identity"
                                  (region (brand (self w)))) w)
        end)
     w.
Proof.
  unfold login. wp_run.
  all: cbn [trace emit self cognito_client set_cognito_client set_uid
            set_aws_auth set_expire_time].
  all: try match goal with
           | H : cognito_client _ = _ |- _ => rewrite H
           end.
  all: first [ reflexivity
             | split; [assumption | reflexivity]
             | left; split; [assumption | reflexivity]
             | right; eexists; split; [eassumption |];
               split; reflexivity ].
Qed.

(** X6: [login] never replaces a federation client that is there.  When
    there is none, it builds one for the brand's region before anything
    else; if that fails, the failure is what [login] raises, nothing is
    sent and there still is no client. *)
Theorem login_keeps_cognito_client (E : env) (w : world) :
  match cognito_client (self w) with
  | Some c => cognito_client (self (snd (login E w))) = Some c
  | None =>
      (boto3_client E (trace w) "cognito-identity" (region (brand (self w)))
       = None
       /\ cognito_client (self (snd (login E w)))
          = Some ("cognito-identity", region (brand (self w))))
      \/ (exists tag,
            boto3_client E (trace w) "cognito-identity"
              (region (brand (self w))) = Some tag
            /\ login E w
               = (Raised (BotoCoreError tag),
                  emit (EvClient "cognito-identity" (region (brand (self w))))
                    w))
  end.
Proof.
  pose proof (login_cognito_client_wp E w) as Hwp. unfold wp in Hwp.
  destruct (login E w) as [[[] | e] w']; cbn [snd].
  - destruct (cognito_client (self w)) as [c |]; [exact Hwp |].
    left. exact Hwp.
  - destruct (cognito_client (self w)) as [c |]; [exact Hwp |].
    destruct Hwp as [Hbuilt | (tag & Htag & -> & ->)].
    + left. exact Hbuilt.
    + right. exists tag. split; [exact Htag | reflexivity].
Qed.

(** ** A successful login *)

Lemma login_success_wp (E : env) (w : world) :
  wp (login E)
     (fun _ w' =>
        exists r1 r2 r3 r4 a2 a3 a4 d2 d3 d4 si lt jwt i t,
          trace w' = EvCognito i t :: EvHttp r4 :: EvUuid :: EvHttp r3
                     :: EvHttp r2 :: EvHttp r1 :: after_client w
          /\ req_params r2 !! "loginID" = Some (PStr (email (self w)))
          /\ req_params r2 !! "password" = Some (PStr (password (self w)))
          /\ transport E (EvHttp r1 :: after_client w) r2 = inr a2
          /\ body a2 = Some d2
          /\ subscript d2 "UID" = Ok (uid (self w'))
          /\ subscript d2 "sessionInfo" = Ok si
          /\ subscript si "login_token" = Ok lt
          /\ req_params r3 !! "login_token" = Some lt
          /\ transport E (EvHttp r2 :: EvHttp r1 :: after_client w) r3 = inr a3
          /\ body a3 = Some d3
          /\ subscript d3 "id_token" = Ok jwt
          /\ req_json r4 = Some (PDict {[ "gigya_token" := jwt ]})
          /\ transport E (EvUuid :: EvHttp r3 :: EvHttp r2 :: EvHttp r1
                          :: after_client w) r4 = inr a4
          /\ body a4 = Some d4
          /\ subscript d4 "IdentityId" = Ok i
          /\ subscript d4 "Token" = Ok t)
     (fun _ _ => True) w.
Proof.
  unfold login. wp_run; try exact I.
  all: unfold after_client;
    try match goal with
        | H : cognito_client _ = _ |- _ => rewrite H
        end.
  all: cbn [trace emit self uid set_uid set_aws_auth set_expire_time
            set_cognito_client] in *.
  all: do 15 eexists.
  all: split; [reflexivity |].
  all: cbn [req_params req_json].
  all: split; [unfold _with_default_params; rewrite lookup_dict_or; reflexivity |].
  all: split; [unfold _with_default_params; rewrite lookup_dict_or; reflexivity |].
  all: split; [eassumption |].
  all: split; [eassumption |].
  all: split; [eassumption |].
  all: split; [eassumption |].
  all: split; [eassumption |].
  all: split; [unfold _with_default_params; rewrite lookup_dict_or;
               generalize dependent x3; intros; reflexivity |].
  all: split; [eassumption |].
  all: split; [eassumption |].
  all: split; [eassumption |].
  all: split; [reflexivity |].
  all: split; [eassumption |].
  all: split; [eassumption |].
  all: split; eassumption.
Qed.

(** X7: in a successful [login], once the federation client is there
    (built first when there was none), the account's e-mail and password
    go into the primary login, the login token of its answer into the JWT
    exchange, the JWT into the token request, and the identity and token
    of that answer into the one federation call that ends the run. *)
Theorem login_forwards_tokens (E : env) (w w' : world) :
  login E w = (Ok tt, w') ->
  exists r1 r2 r3 r4 a2 a3 a4 d2 d3 d4 si lt jwt i t,
    trace w' = EvCognito i t :: EvHttp r4 :: EvUuid :: EvHttp r3
               :: EvHttp r2 :: EvHttp r1 :: after_client w
    /\ req_params r2 !! "loginID" = Some (PStr (email (self w)))
    /\ req_params r2 !! "password" = Some (PStr (password (self w)))
    /\ transport E (EvHttp r1 :: after_client w) r2 = inr a2
    /\ body a2 = Some d2
    /\ subscript d2 "sessionInfo" = Ok si
    /\ subscript si "login_token" = Ok lt
    /\ req_params r3 !! "login_token" = Some lt
    /\ transport E (EvHttp r2 :: EvHttp r1 :: after_client w) r3 = inr a3
    /\ body a3 = Some d3
    /\ subscript d3 "id_token" = Ok jwt
    /\ req_json r4 = Some (PDict {[ "gigya_token" := jwt ]})
    /\ transport E (EvUuid :: EvHttp r3 :: EvHttp r2 :: EvHttp r1
                    :: after_client w) r4
       = inr a4
    /\ body a4 = Some d4
    /\ subscript d4 "IdentityId" = Ok i
    /\ subscript d4 "Token" = Ok t.
Proof.
  intros Hrun.
  destruct (wp_returns _ _ _ _ _ _ (login_success_wp E w) Hrun)
    as (r1 & r2 & r3 & r4 & a2 & a3 & a4 & d2 & d3 & d4 & si & lt & jwt & i & t
        & H1 & H2 & H3 & H4 & H5 & _ & H6 & H7 & H8 & H9 & H10 & H11 & H12
        & H13 & H14 & H15 & H16).
  exists r1, r2, r3, r4, a2, a3, a4, d2, d3, d4, si, lt, jwt, i, t.
  repeat (split; [assumption |]). assumption.
Qed.

Lemma login_forwards_tokens_witness :
  let E := scripted 1000 0 (login_answers 200) (credentials (utc_time 0)) in
  let w := fresh_world (sample_api false) in
  exists r3 r4 lt jwt i t rest,
    trace (snd (login E w)) = EvCognito i t :: EvHttp r4 :: EvUuid :: EvHttp r3 :: rest
    /\ req_params r3 !! "login_token" = Some lt
    /\ req_json r4 = Some (PDict {[ "gigya_token" := jwt ]}).
Proof.
  intros E w.
  destruct (login_forwards_tokens E w (snd (login E w)))
    as (r1 & r2 & r3 & r4 & a2 & a3 & a4 & d2 & d3 & d4 & si & lt & jwt & i & t
        & Htr & _ & _ & _ & _ & _ & _ & Hr3 & _ & _ & _ & Hr4 & _).
  - vm_compute. reflexivity.
  - exists r3, r4, lt, jwt, i, t, (EvHttp r2 :: EvHttp r1 :: after_client w).
    split; [exact Htr |]. split; [exact Hr3 | exact Hr4].
Defined.

Lemma login_stores_wp (E : env) (w : world) :
  wp (login E)
     (fun _ w' =>
        exists r2 tr a2 d2 i t rest answer creds ak sk st,
          req_endpoint r2 = EpLogin
          /\ transport E tr r2 = inr a2
          /\ body a2 = Some d2
          /\ subscript d2 "UID" = Ok (uid (self w'))
          /\ trace w' = EvCognito i t :: rest
          /\ get_credentials_for_identity E rest i t = inr answer
          /\ subscript answer "Credentials" = Ok creds
          /\ subscript creds "AccessKeyId" = Ok ak
          /\ subscript creds "SecretKey" = Ok sk
          /\ subscript creds "SessionToken" = Ok st
          /\ aws_auth (self w')
             = Some {| service := "execute-api";
                       sig_region := region (brand (self w));
                       aws_access_key_id := ak;
                       aws_secret_access_key := sk;
                       aws_session_token := st |}
          /\ subscript creds "Expiration" = Ok (expire_time (self w'))
          /\ same_config (self w) (self w'))
     (fun _ _ => True) w.
Proof.
  unfold login. wp_run; try exact I.
  all: cbn [trace emit self uid aws_auth expire_time set_uid set_aws_auth
            set_expire_time set_cognito_client] in *.
  all: do 12 eexists.
  all: split; [| split; [match goal with
                         | H : transport _ _ ?r = inr _ |- transport _ _ _ = _ =>
                             lazymatch r with
                             | context [EpLogin] => exact H
                             end
                         end |]]; [reflexivity |].
  all: split; [eassumption |].
  all: split; [eassumption |].
  all: split; [reflexivity |].
  all: split; [eassumption |].
  all: split; [eassumption |].
  all: split; [eassumption |].
  all: split; [eassumption |].
  all: split; [eassumption |].
  all: split; [reflexivity |].
  all: split; [eassumption |].
  all: repeat split.
Qed.

(** X8: a successful [login] stores the [UID] of the primary login's
    answer, a signer for service "execute-api" in the brand's region
    built from the three keys of the issued credentials, and their
    [Expiration]; e-mail, password, PIN, brand and [dev_mode] stay. *)
Theorem login_stores_credentials (E : env) (w w' : world) :
  login E w = (Ok tt, w') ->
  exists r2 tr a2 d2 i t rest answer creds ak sk st,
    req_endpoint r2 = EpLogin
    /\ transport E tr r2 = inr a2
    /\ body a2 = Some d2
    /\ subscript d2 "UID" = Ok (uid (self w'))
    /\ trace w' = EvCognito i t :: rest
    /\ get_credentials_for_identity E rest i t = inr answer
    /\ subscript answer "Credentials" = Ok creds
    /\ subscript creds "AccessKeyId" = Ok ak
    /\ subscript creds "SecretKey" = Ok sk
    /\ subscript creds "SessionToken" = Ok st
    /\ aws_auth (self w')
       = Some {| service := "execute-api";
                 sig_region := region (brand (self w));
                 aws_access_key_id := ak;
                 aws_secret_access_key := sk;
                 aws_session_token := st |}
    /\ subscript creds "Expiration" = Ok (expire_time (self w'))
    /\ same_config (self w) (self w').
Proof.
  intros Hrun. exact (wp_returns _ _ _ _ _ _ (login_stores_wp E w) Hrun).
Qed.

Lemma login_stores_credentials_witness :
  let E := scripted 1000 0 (login_answers 200) (credentials (utc_time 77)) in
  let w := fresh_world (sample_api false) in
  exists creds ak sk st,
    subscript creds "Expiration" = Ok (expire_time (self (snd (login E w))))
    /\ aws_auth (self (snd (login E w)))
       = Some {| service := "execute-api";
                 sig_region := region (brand (self w));
                 aws_access_key_id := ak;
                 aws_secret_access_key := sk;
                 aws_session_token := st |}.
Proof.
  intros E w.
  destruct (login_stores_credentials E w (snd (login E w)))
    as (r2 & tr & a2 & d2 & i & t & rest & answer & creds & ak & sk & st
        & _ & _ & _ & _ & _ & _ & _ & _ & _ & _ & Hauth & Hexp & _).
  - vm_compute. reflexivity.
  - exists creds, ak, sk, st. split; [exact Hexp | exact Hauth].
Defined.

(** ** The freshness check in front of every call *)

Lemma refresh_in_dev_mode (E : env) (w : world) :
  dev_mode (self w) = true -> _refresh_token_if_needed E w = (Ok tt, w).
Proof.
  intros Hdev. unfold _refresh_token_if_needed, bind, get_self.
  rewrite Hdev. reflexivity.
Qed.

Lemma refresh_when_fresh (E : env) (w : world) (d : datetime) (z : tzinfo) :
  dev_mode (self w) = false ->
  expire_time (self w) = PTime d ->
  tz d = Some z ->
  five_minutes <= wall d ->
  clock E (trace w)
  <= wall d - five_minutes - utcoffset z (wall d - five_minutes) false ->
  _refresh_token_if_needed E w = (Ok tt, emit EvNow w).
Proof.
  intros Hdev Hexp Hz Hw Hle.
  unfold _refresh_token_if_needed, bind, get_self.
  rewrite Hdev, (needs_refresh_aware E (self w) w d z Hexp Hz Hw).
  replace (wall d - five_minutes - utcoffset z (wall d - five_minutes) false
           <? clock E (trace w))%Z with false; [reflexivity |].
  symmetry. apply Z.ltb_ge. exact Hle.
Qed.

Lemma refresh_with_bad_expiry (E : env) (w : world) :
  dev_mode (self w) = false ->
  expire_time (self w) <> PNone ->
  is_datetime (expire_time (self w)) = false ->
  _refresh_token_if_needed E w = (Raised TypeError, emit EvNow w).
Proof.
  intros Hdev Hnone Hdt.
  unfold _refresh_token_if_needed, needs_refresh, bind, get_self, now, lift.
  rewrite Hdev.
  destruct (expire_time (self w)); try reflexivity;
    [contradiction | discriminate].
Qed.

Lemma perform_after_failed_refresh (E : env) (op : operation) (w w1 : world)
    (e : exn) :
  checks_freshness op = true ->
  _refresh_token_if_needed E w = (Raised e, w1) ->
  perform E op w = (Raised e, w1).
Proof.
  intros Hop Hrun.
  destruct (dev_mode (self w)) eqn:Hdev.
  { rewrite (refresh_in_dev_mode E w Hdev) in Hrun. discriminate Hrun. }
  destruct op; try discriminate Hop; cbn [perform].
  - unfold bind. rewrite Hrun. reflexivity.
  - unfold list_vehicles, bind, get_self. rewrite Hdev, Hrun. reflexivity.
  - unfold get_vehicle, bind, get_self. rewrite Hdev, Hrun. reflexivity.
  - unfold get_vehicle_status, bind, get_self. rewrite Hdev, Hrun. reflexivity.
  - unfold get_vehicle_location, bind, get_self. rewrite Hdev, Hrun. reflexivity.
  - unfold command, bind, get_self. rewrite Hdev, Hrun. reflexivity.
Qed.

Lemma perform_in_dev_mode (E : env) (op : operation) (w : world) :
  checks_freshness op = true ->
  dev_mode (self w) = true ->
  snd (perform E op w) = w.
Proof.
  intros Hop Hdev.
  destruct op; try discriminate Hop; cbn [perform].
  - unfold bind. rewrite (refresh_in_dev_mode E w Hdev). reflexivity.
  - unfold list_vehicles, bind, get_self, load_fixture. rewrite Hdev.
    destruct (fixture E "test_list.json") as [[v |] |]; reflexivity.
  - unfold get_vehicle, bind, get_self, load_fixture. rewrite Hdev.
    destruct (fixture E _) as [[v |] |]; reflexivity.
  - unfold get_vehicle_status, bind, get_self, load_fixture. rewrite Hdev.
    destruct (fixture E _) as [[v |] |]; reflexivity.
  - unfold get_vehicle_location, bind, get_self, load_fixture. rewrite Hdev.
    destruct (fixture E _) as [[v |] |]; reflexivity.
  - unfold command, bind, get_self. rewrite Hdev. reflexivity.
Qed.

Lemma wp_snd {A : Type} (m : M A) (P : world -> Prop) (w : world) :
  wp m (fun _ => P) (fun _ => P) w -> P (snd (m w)).
Proof. unfold wp. destruct (m w) as [[a | e] w']; auto. Qed.

Ltac wp_op_step :=
  lazymatch goal with
  | |- wp (_default_aws_headers _ _) _ _ _ => unfold _default_aws_headers
  | |- wp (uuid4 _) _ _ _ => apply wp_uuid4; cbv beta
  | |- _ => wp_command_step
  end.

Ltac after_refresh Hrun :=
  let Heq := fresh "Heq" in
  apply wp_bind, wp_eqn;
  [ intros [] ? Heq | intros ? ? Heq ];
  rewrite Hrun in Heq;
  [ injection Heq as <- | discriminate Heq ].

Ltac forget_ids :=
  repeat match goal with
         | |- context [correlation_id ?x] =>
             generalize (correlation_id x); intros ?
         end.

Ltac signed_trace :=
  first
    [ apply run_of_refl
    | apply run_of_step;
      [ first
          [ exact I
          | cbn [signed_request req_endpoint req_auth req_headers req_url
                 is_login_endpoint self emit];
            split; [reflexivity |]; split; [reflexivity |];
            split; [rewrite lookup_dict_or; forget_ids; reflexivity |];
            split; [rewrite lookup_dict_or; forget_ids; reflexivity |];
            do 2 eexists; reflexivity ]
      | signed_trace ] ].

Ltac close_tail :=
  unfold tail_effects; cbv beta; cbn [trace emit self];
  split; [reflexivity |];
  split; [signed_trace |];
  intros ep; destruct ep; cbn; lia.

Lemma perform_tail (E : env) (op : operation) (w w1 : world) :
  dev_mode (self w) = false ->
  checks_freshness op = true ->
  _refresh_token_if_needed E w = (Ok tt, w1) ->
  tail_effects E w1 (snd (perform E op w)).
Proof.
  intros Hdev Hop Hrun.
  destruct op; try discriminate Hop; cbn [perform].
  - unfold bind. rewrite Hrun. cbn. close_tail.
  - apply wp_snd. unfold list_vehicles.
    wp_step. wp_step. rewrite Hdev. after_refresh Hrun.
    unfold signed_get. repeat wp_op_step. all: close_tail.
  - apply wp_snd. unfold get_vehicle.
    wp_step. wp_step. rewrite Hdev. after_refresh Hrun.
    unfold signed_get. repeat wp_op_step. all: close_tail.
  - apply wp_snd. unfold get_vehicle_status.
    wp_step. wp_step. rewrite Hdev. after_refresh Hrun.
    unfold signed_get. repeat wp_op_step. all: close_tail.
  - apply wp_snd. unfold get_vehicle_location.
    wp_step. wp_step. rewrite Hdev. after_refresh Hrun.
    unfold signed_get. repeat wp_op_step. all: close_tail.
  - apply wp_snd. unfold command.
    wp_step. wp_step. wp_step. rewrite Hdev. after_refresh Hrun.
    unfold signed_post. repeat wp_op_step. all: close_tail.
Qed.

Lemma login_bound_wp (E : env) (w : world) :
  wp (login E)
     (fun _ w' =>
        forall ep,
          (requests_to ep (trace w')
           <= requests_to ep (trace w)
              + (if is_login_endpoint ep then 1 else 0))%nat)
     (fun _ w' =>
        forall ep,
          (requests_to ep (trace w')
           <= requests_to ep (trace w)
              + (if is_login_endpoint ep then 1 else 0))%nat)
     w.
Proof.
  unfold login. wp_run.
  all: cbn [trace emit self].
  all: intros ep; destruct ep; cbn; lia.
Qed.

Lemma refresh_bound (E : env) (w : world) (ep : endpoint) :
  (requests_to ep (trace (snd (_refresh_token_if_needed E w)))
   <= requests_to ep (trace w) + (if is_login_endpoint ep then 1 else 0))%nat.
Proof.
  revert ep.
  apply (wp_snd (_refresh_token_if_needed E)
           (fun w' => forall ep,
              (requests_to ep (trace w')
               <= requests_to ep (trace w)
                  + (if is_login_endpoint ep then 1 else 0))%nat)).
  unfold _refresh_token_if_needed, needs_refresh.
  wp_step. wp_step. wp_step.
  { intros ep. cbn. lia. }
  wp_step. destruct (expire_time (self w)); wp_run.
  all: try discriminate.
  all: try (apply (login_bound_wp E w)).
  all: try (eapply wp_mono; [apply (login_bound_wp E (emit EvNow w)) | |];
            cbv beta; intros ? ? Hb ep; specialize (Hb ep); cbn in Hb; exact Hb).
  all: intros ep; cbn; lia.
Qed.

(** X9: when the freshness check fails, the call fails with the same
    exception in the same state, and nothing has gone to the vehicle, PIN
    or command endpoints: there is no fallback to the stored
    credential. *)
Theorem failed_refresh_aborts_call (E : env) (op : operation) (w w1 : world)
    (e : exn) :
  checks_freshness op = true ->
  _refresh_token_if_needed E w = (Raised e, w1) ->
  perform E op w = (Raised e, w1)
  /\ forall ep, is_login_endpoint ep = false ->
       requests_to ep (trace w1) = requests_to ep (trace w).
Proof.
  intros Hop Hrun. split; [exact (perform_after_failed_refresh E op w w1 e Hop Hrun) |].
  intros ep Hep.
  pose proof (wp_raises _ _ _ _ _ _ (refresh_effects E w) Hrun) as (_ & Hplus & _).
  apply login_run_requests_to; [exact Hep |].
  apply login_run_plus_weaken, Hplus.
Qed.

(** X10: a stored expiry that is neither [None] nor a [datetime] makes
    every call that checks freshness raise [TypeError] after one clock
    read, without any request and without touching the client, so the
    next call fails the same way. *)
Theorem bad_expiry_blocks_calls (E : env) (op : operation) (w : world) :
  dev_mode (self w) = false ->
  expire_time (self w) <> PNone ->
  is_datetime (expire_time (self w)) = false ->
  checks_freshness op = true ->
  perform E op w = (Raised TypeError, emit EvNow w).
Proof.
  intros Hdev Hnone Hdt Hop.
  apply perform_after_failed_refresh; [exact Hop |].
  apply refresh_with_bad_expiry; assumption.
Qed.

Lemma signed_get_auth (E : env) (ep : endpoint) (path : API -> string)
    (params : gmap string pyval) (w : world) :
  exists req,
    req_endpoint req = ep
    /\ req_auth req = aws_auth (self w)
    /\ signed_get E ep path params w
       = (read_outcome (transport E (EvUuid :: trace w) req) Ok,
          emit (EvHttp req) (emit EvUuid w)).
Proof.
  unfold signed_get, _default_aws_headers, uuid4, sess_request, json,
    bind, get_self, ret, raise, read_outcome.
  cbn [trace emit self].
  match goal with
  | |- context [transport E (EvUuid :: trace w) ?r] =>
      lazymatch r with
      | Build_request _ _ _ _ _ _ _ => exists r
      end
  end.
  split; [reflexivity |]. split; [reflexivity |].
  destruct (transport E (EvUuid :: trace w) _) as [tag | resp]; [reflexivity |].
  destruct (body resp); reflexivity.
Qed.

(** X11: with a stored aware expiry whose instant is at least the margin
    ahead, in a zone that gives the reading five minutes before the
    expiry the offset it gives the expiry, a read operation reads the
    clock, draws one id and sends exactly its one request, without
    logging in; its result is read off that answer and the client object
    is as before. *)
Theorem fresh_read_sends_one_request (E : env) (op : operation) (w : world)
    (d : datetime) (e : Z) (ep : endpoint) :
  dev_mode (self w) = false ->
  expire_time (self w) = PTime d ->
  instant d = Some e ->
  steady d ->
  five_minutes <= wall d ->
  clock E (trace w) + five_minutes <= e ->
  read_endpoint op = Some ep ->
  exists req,
    req_endpoint req = ep
    /\ req_auth req = aws_auth (self w)
    /\ perform E op w
       = (read_outcome (transport E (EvUuid :: EvNow :: trace w) req)
            (match op with
             | OpListVehicles => fun d => subscript d "vehicles"
             | _ => Ok
             end),
          {| self := self w; trace := EvHttp req :: EvUuid :: EvNow :: trace w |}).
Proof.
  intros Hdev Hexp He Hs Hw Hle Hop.
  unfold instant in He. unfold steady in Hs.
  destruct (tz d) as [z |] eqn:Hz; [| discriminate He].
  injection He as <-.
  assert (Hrun : _refresh_token_if_needed E w = (Ok tt, emit EvNow w))
    by (apply (refresh_when_fresh E w d z Hdev Hexp Hz Hw); rewrite Hs; lia).
  destruct op; try discriminate Hop; injection Hop as <-; cbn [perform].
  - destruct (signed_get_auth E EpListVehicles
      (fun s => "/v4/accounts/" +:+ py_str E (uid s) +:+ "/vehicles")
      {[ "stage" := PStr "ALL" ]} (emit EvNow w)) as (req & Hep & Hauth & Hget).
    exists req. split; [exact Hep |]. split; [exact Hauth |].
    unfold list_vehicles. read_after_refresh Hdev Hrun.
    unfold bind. rewrite Hget. unfold read_outcome, lift. cbn [trace emit].
    destruct (transport E (EvUuid :: EvNow :: trace w) req) as [tag | resp];
      [reflexivity |].
    destruct (body resp); reflexivity.
  - destruct (signed_get_auth E EpVehicle
      (fun s => "/v2/accounts/" +:+ py_str E (uid s) +:+ "/vehicles/" +:+ vin
                +:+ "/status") ∅ (emit EvNow w)) as (req & Hep & Hauth & Hget).
    exists req. split; [exact Hep |]. split; [exact Hauth |].
    unfold get_vehicle. read_after_refresh Hdev Hrun. exact Hget.
  - destruct (signed_get_auth E EpVehicleStatus
      (fun s => "/v1/accounts/" +:+ py_str E (uid s) +:+ "/vehicles/" +:+ vin
                +:+ "/remote/status") ∅ (emit EvNow w)) as (req & Hep & Hauth & Hget).
    exists req. split; [exact Hep |]. split; [exact Hauth |].
    unfold get_vehicle_status. read_after_refresh Hdev Hrun. exact Hget.
  - destruct (signed_get_auth E EpVehicleLocation
      (fun s => "/v1/accounts/" +:+ py_str E (uid s) +:+ "/vehicles/" +:+ vin
                +:+ "/location/lastknown") ∅ (emit EvNow w)) as (req & Hep & Hauth & Hget).
    exists req. split; [exact Hep |]. split; [exact Hauth |].
    unfold get_vehicle_location. read_after_refresh Hdev Hrun. exact Hget.
Qed.

(** X12: in dev mode no call but [login] itself has any effect: no clock
    read, no random draw, no request, and the client object is as
    before. *)
Theorem dev_mode_calls_have_no_effect (E : env) (op : operation) (w : world) :
  checks_freshness op = true ->
  dev_mode (self w) = true ->
  snd (perform E op w) = w.
Proof. apply perform_in_dev_mode. Qed.

(** X13: a call leaves the client object exactly as its freshness check
    left it: the read operations and [command] store nothing of what they
    receive, the step-up token included. *)
Theorem calls_store_nothing (E : env) (op : operation) (w : world) :
  checks_freshness op = true ->
  self (snd (perform E op w)) = self (snd (_refresh_token_if_needed E w)).
Proof.
  intros Hop.
  destruct (dev_mode (self w)) eqn:Hdev.
  { rewrite (perform_in_dev_mode E op w Hop Hdev),
      (refresh_in_dev_mode E w Hdev). reflexivity. }
  destruct (_refresh_token_if_needed E w) as [[[] | e] w1] eqn:Hrun.
  - destruct (perform_tail E op w w1 Hdev Hop Hrun) as [Hself _]. exact Hself.
  - rewrite (perform_after_failed_refresh E op w w1 e Hop Hrun). reflexivity.
Qed.

(** X14: once the freshness check has passed, everything the call sends
    goes to the vehicle, PIN or command endpoints, is signed with the
    signer the check left in place, has content type JSON, and carries
    the brand's auth key at the PIN endpoint and its API key
    elsewhere; its URL is the auth or API base followed by a version and
    the account the check left in place. *)
Theorem requests_signed_after_refresh (E : env) (op : operation)
    (w w1 : world) :
  dev_mode (self w) = false ->
  checks_freshness op = true ->
  _refresh_token_if_needed E w = (Ok tt, w1) ->
  run_of (signed_request E (self w1)) (trace w1)
    (trace (snd (perform E op w))).
Proof.
  intros Hdev Hop Hrun.
  destruct (perform_tail E op w w1 Hdev Hop Hrun) as (_ & Hsigned & _).
  exact Hsigned.
Qed.

(** X15: no call sends more than one request to any endpoint: nothing is
    retried. *)
Theorem no_request_is_repeated (E : env) (op : operation) (w : world)
    (ep : endpoint) :
  (requests_to ep (trace (snd (perform E op w)))
   <= requests_to ep (trace w) + 1)%nat.
Proof.
  destruct (checks_freshness op) eqn:Hop.
  - destruct (dev_mode (self w)) eqn:Hdev.
    { rewrite (perform_in_dev_mode E op w Hop Hdev). lia. }
    pose proof (refresh_bound E w ep) as Hb.
    destruct (_refresh_token_if_needed E w) as [[[] | e] w1] eqn:Hrun;
      cbn [snd] in Hb.
    + destruct (perform_tail E op w w1 Hdev Hop Hrun) as (_ & _ & Ht).
      specialize (Ht ep). destruct (is_login_endpoint ep); lia.
    + rewrite (perform_after_failed_refresh E op w w1 e Hop Hrun). cbn [snd].
      destruct (is_login_endpoint ep); lia.
  - destruct op; try discriminate Hop. cbn [perform].
    pose proof (login_bound_wp E w) as Hwp. unfold wp in Hwp.
    unfold bind, ret. destruct (login E w) as [[[] | e] w']; cbn [snd];
      specialize (Hwp ep); destruct (is_login_endpoint ep); lia.
Qed.

Lemma command_chain_wp (E : env) (vin : string) (cmd : Command) (w : world) :
  dev_mode (self w) = false ->
  wp (command E vin cmd)
     (fun _ w' => command_chain E cmd w w')
     (fun _ w' => command_chain E cmd w w')
     w.
Proof.
  intros Hdev. unfold command.
  wp_step. wp_step. rewrite Hdev. wp_step. apply wp_refresh.
  - intros w1 [Hc Hr]. unfold signed_post. repeat wp_command_step.
    all: cbn [trace emit self] in *.
    all: unfold command_chain; cbn [trace].
    all: intros creq rest [= <- <-] Hep; try discriminate Hep.
    all: do 5 eexists.
    all: split; [reflexivity |].
    all: split; [reflexivity |].
    all: split; [reflexivity |].
    all: split; [eassumption |].
    all: split; [eassumption |].
    all: split; [eassumption |].
    all: reflexivity.
  - intros e w1 (Hc & Hplus & Hexp).
    intros creq rest Htr Hep. rewrite Htr in Hplus.
    apply login_run_plus_head in Hplus. rewrite Hep in Hplus. discriminate.
Qed.

(** X16: whenever a run of [command] ends on a request to the command
    endpoint, that request came right after a PIN request carrying the
    base64 of the PIN, the PIN answer held a "token", and the command
    request carries the command's name and that very token. *)
Theorem command_forwards_pin_token (E : env) (vin : string) (cmd : Command)
    (w : world) (creq : request) (rest : list event) :
  dev_mode (self w) = false ->
  trace (snd (command E vin cmd w)) = EvHttp creq :: rest ->
  req_endpoint creq = EpCommand ->
  exists preq rest2 presp d tok,
    rest = EvUuid :: EvHttp preq :: rest2
    /\ req_endpoint preq = EpPinAuth
    /\ req_json preq = Some (PDict {[ "pin" := PStr (b64encode (pin (self w))) ]})
    /\ transport E rest2 preq = inr presp
    /\ body presp = Some d
    /\ subscript d "token" = Ok tok
    /\ req_json creq
       = Some (PDict {[ "command" := PStr (name cmd); "pinAuth" := tok ]}).
Proof.
  intros Hdev Htr Hep.
  pose proof (wp_snd _ _ _ (command_chain_wp E vin cmd w Hdev)) as Hchain.
  exact (Hchain creq rest Htr Hep).
Qed.

(** X17: every [command] call whose freshness check passes sends exactly
    one PIN request: a step-up token is asked for anew each time. *)
Theorem command_asks_pin_each_time (E : env) (vin : string) (cmd : Command)
    (w w1 : world) :
  dev_mode (self w) = false ->
  _refresh_token_if_needed E w = (Ok tt, w1) ->
  requests_to EpPinAuth (trace (snd (command E vin cmd w)))
  = S (requests_to EpPinAuth (trace w)).
Proof.
  intros Hdev Hrun.
  pose proof (wp_returns _ _ _ _ _ _ (refresh_effects E w) Hrun) as [_ Hr].
  rewrite <- (login_run_requests_to EpPinAuth (trace w) (trace w1) eq_refl Hr).
  apply (wp_snd (command E vin cmd)
           (fun w' => requests_to EpPinAuth (trace w')
                      = S (requests_to EpPinAuth (trace w1)))).
  unfold command.
  wp_step. wp_step. rewrite Hdev. after_refresh Hrun.
  unfold signed_post. repeat wp_op_step.
  all: cbn [trace emit self requests_to req_endpoint endpoint_eqb]; lia.
Qed.

(** ** Sample runs of whole calls *)

Lemma failed_refresh_aborts_call_witness :
  let E := scripted 0 0
             (answer EpBootstrap (reply 200 (doc [("statusCode", PInt 403)]))
                (login_answers 200))
             (inl "down") in
  let w := fresh_world (sample_api false) in
  let w1 := snd (_refresh_token_if_needed E w) in
  perform E OpListVehicles w = (Raised (Exception_ "bootstrap failed"), w1)
  /\ forall ep, is_login_endpoint ep = false ->
       requests_to ep (trace w1) = requests_to ep (trace w).
Proof.
  intros E w w1.
  apply (failed_refresh_aborts_call E OpListVehicles w w1
           (Exception_ "bootstrap failed")).
  - reflexivity.
  - vm_compute. reflexivity.
Defined.

Lemma bad_expiry_blocks_calls_witness :
  let E := scripted 0 0 (login_answers 200) (credentials (utc_time 0)) in
  let w := fresh_world (logged_in (PStr "2030-01-01T00:00:00Z")) in
  perform E (OpGetVehicle "VIN1") w = (Raised TypeError, emit EvNow w).
Proof.
  intros E w.
  apply (bad_expiry_blocks_calls E (OpGetVehicle "VIN1") w).
  - reflexivity.
  - discriminate.
  - reflexivity.
  - reflexivity.
Defined.

Lemma fresh_read_sends_one_request_witness :
  let E := scripted 0 7
             (answer EpVehicle (reply 200 (doc [("vin", PStr "VIN1")]))
                (login_answers 200))
             (inl "down") in
  exists req,
    req_endpoint req = EpVehicle
    /\ req_auth req = aws_auth (self command_world)
    /\ perform E (OpGetVehicle "VIN1") command_world
       = (read_outcome
            (transport E (EvUuid :: EvNow :: trace command_world) req) Ok,
          {| self := self command_world;
             trace := EvHttp req :: EvUuid :: EvNow :: trace command_world |}).
Proof.
  intros E.
  apply (fresh_read_sends_one_request E (OpGetVehicle "VIN1") command_world
           {| wall := five_minutes; fold := false; tz := Some utc |}
           five_minutes EpVehicle).
  - reflexivity.
  - reflexivity.
  - reflexivity.
  - reflexivity.
  - vm_compute. discriminate.
  - vm_compute. discriminate.
  - reflexivity.
Defined.

Lemma dev_mode_calls_have_no_effect_witness :
  let E := scripted 0 0 (fun _ => inl "down") (inl "down") in
  let w := fresh_world (sample_api true) in
  snd (perform E OpListVehicles w) = w.
Proof.
  intros E w.
  apply (dev_mode_calls_have_no_effect E OpListVehicles w); reflexivity.
Defined.

Lemma calls_store_nothing_witness :
  let E := command_env (doc [("token", PStr "tk")])
             (doc [("responseStatus", PStr "pending")]) in
  self (snd (perform E (OpCommand "VIN1" sample_command) command_world))
  = self (snd (_refresh_token_if_needed E command_world)).
Proof.
  intros E.
  apply (calls_store_nothing E (OpCommand "VIN1" sample_command) command_world).
  reflexivity.
Defined.

Lemma requests_signed_after_refresh_witness :
  let E := scripted 0 7
             (answer EpListVehicles (reply 200 (doc [("vehicles", PList [])]))
                (login_answers 200))
             (credentials (utc_time five_minutes)) in
  let w := fresh_world (sample_api false) in
  let w1 := snd (_refresh_token_if_needed E w) in
  run_of (signed_request E (self w1)) (trace w1)
    (trace (snd (perform E OpListVehicles w))).
Proof.
  intros E w w1.
  apply (requests_signed_after_refresh E OpListVehicles w w1).
  - reflexivity.
  - reflexivity.
  - vm_compute. reflexivity.
Defined.

Lemma command_forwards_pin_token_witness :
  let E := command_env (doc [("token", PStr "tk")])
             (doc [("responseStatus", PStr "pending")]) in
  exists creq preq tok rest,
    trace (snd (command E "VIN1" sample_command command_world))
    = EvHttp creq :: EvUuid :: EvHttp preq :: rest
    /\ req_json creq
       = Some (PDict {[ "command" := PStr (name sample_command);
                        "pinAuth" := tok ]}).
Proof.
  intros E.
  assert (Hlast : exists creq rest,
            trace (snd (command E "VIN1" sample_command command_world))
            = EvHttp creq :: rest
            /\ req_endpoint creq = EpCommand).
  { vm_compute. do 2 eexists. split; reflexivity. }
  destruct Hlast as (creq & rest & Htr & Hep).
  destruct (command_forwards_pin_token E "VIN1" sample_command command_world
              creq rest eq_refl Htr Hep)
    as (preq & rest2 & presp & d & tok & Hrest & _ & _ & _ & _ & _ & Hjson).
  exists creq, preq, tok, rest2. split; [| exact Hjson].
  rewrite Htr, Hrest. reflexivity.
Defined.

Lemma command_asks_pin_each_time_witness :
  let E := command_env (doc []) (doc []) in
  requests_to EpPinAuth
    (trace (snd (command E "VIN1" sample_command command_world)))
  = S (requests_to EpPinAuth (trace command_world)).
Proof.
  intros E.
  apply (command_asks_pin_each_time E "VIN1" sample_command command_world
           (emit EvNow command_world)).
  - reflexivity.
  - vm_compute. reflexivity.
Defined.

(** X18: when the first login of a client fails, nothing of it is kept
    for later: the next freshness check, whatever the world answers then,
    runs the whole [login] again from the bootstrap. *)
Theorem failed_first_login_is_retried (E E' : env) (w w1 : world) (e : exn) :
  dev_mode (self w) = false ->
  expire_time (self w) = PNone ->
  _refresh_token_if_needed E w = (Raised e, w1) ->
  _refresh_token_if_needed E' w1 = login E' w1.
Proof.
  intros Hdev Hexp Hrun.
  pose proof (wp_raises _ _ _ _ _ _ (refresh_effects E w) Hrun)
    as ((_ & _ & _ & _ & Hdev1) & _).
  assert (Hlogin : login E w = (Raised e, w1)).
  { unfold _refresh_token_if_needed, needs_refresh, bind, get_self, ret in Hrun.
    rewrite Hdev, Hexp in Hrun. exact Hrun. }
  pose proof (wp_raises _ _ _ _ _ _ (login_failure_wp E w) Hlogin)
    as (Hexp1 & _).
  unfold _refresh_token_if_needed, needs_refresh, bind, get_self, ret.
  rewrite Hdev1, Hdev, Hexp1, Hexp. reflexivity.
Qed.

Lemma failed_first_login_is_retried_witness :
  let E := scripted 0 0 (login_answers 403) (inl "down") in
  let E' := scripted 0 0 (login_answers 200) (credentials (utc_time five_minutes)) in
  let w := fresh_world (sample_api false) in
  let w1 := snd (_refresh_token_if_needed E w) in
  _refresh_token_if_needed E' w1 = login E' w1.
Proof.
  intros E E' w w1.
  apply (failed_first_login_is_retried E E' w w1
           (Exception_ "unable to obtain JWT")).
  - reflexivity.
  - reflexivity.
  - vm_compute. reflexivity.
Defined.
